(** * rad-flux: the [Actions] dispatcher of [src/actions.js]

    A shallow embedding of the class [Actions] and the properties of its
    methods [constructor], [registerAsync], [call], [buildDoneFunction],
    [publish], [on] and [unsubscribe].

    Modelling decisions.
    - [this.actions] is the plain object given to the constructor, used as a
      map from action names to records [{ subscribers, func }]: its own
      properties are a [gmap string Action]; a name that is not an own
      property is looked up in [Object.prototype], as property access does.
    - A JavaScript function is a reference [fn]; [===] and [Array.includes]
      on functions compare references.
    - [registerAsync], [on] and [unsubscribe] run no user function: they are
      computations of the state-and-exception monad [M] over the map.
    - [publish], [call] and the [done] closure run user functions.  A user
      function is given by what it asks of the dispatcher ([prog]): it
      returns, throws, or calls a method or a [done] and goes on from the
      outcome, which it may catch.  The subscriber array is walked like
      [for...of] does, by index over the array as it is at each step, so that
      what a subscriber does to the array during the cycle is seen by the
      loop.  User functions may call each other through the dispatcher
      without end; the runs are bounded by a fuel, and a run that needs more
      ends with [None] in place of a completion.
    - A run records, in order, the user functions the dispatcher applies and
      the requests those functions make: the trace.
    - The key of [call], [publish] and [unsubscribe] is the property name the
      argument is converted to, a string.  A user function is a function of
      its arguments; what it may keep from one application to the next is not
      modelled. *)

From stdpp Require Import gmap strings list fin_maps.

#[local] Set Default Proof Using "Type".

(** ** JavaScript values *)

(** A function reference; two functions are [===] when the references are. *)
Definition fn := nat.

#[local] Set Warnings "-register-all".
Inductive jsval :=
| VUndefined
| VNull
| VBoolean (b : bool)
| VNumber (n : Z)
| VString (s : string)
| VObject (props : list (string * jsval))
| VFunction (f : fn).

Definition typeof (v : jsval) : string :=
  match v with
  | VUndefined => "undefined"
  | VNull => "object"
  | VBoolean _ => "boolean"
  | VNumber _ => "number"
  | VString _ => "string"
  | VObject _ => "object"
  | VFunction _ => "function"
  end.

(** [callback === each] where [each] is an element of a subscriber array,
    hence a function. *)
Definition strict_equals_fn (callback : jsval) (each : fn) : bool :=
  match callback with
  | VFunction f => bool_decide (f = each)
  | _ => false
  end.

(** ** Exceptions *)

(** [TypeError] is thrown by the argument checks and by the engine when a
    property of [undefined] is read or [undefined] is iterated; [Error] is
    thrown by the state checks of [registerAsync]. *)
Inductive exn :=
| TypeError (msg : string)
| Error (msg : string).

Definition is_TypeError (e : exn) : bool :=
  match e with TypeError _ => true | Error _ => false end.

(** A state error is a plain [Error]. *)
Definition is_state_error (e : exn) : bool :=
  match e with Error _ => true | TypeError _ => false end.

(** What the engine throws for [undefined.subscribers]; the text is V8's. *)
Definition undefined_property_read : exn :=
  TypeError "Cannot read properties of undefined (reading 'subscribers')".

(** What the engine throws for [x.subscribers.includes] and
    [x.subscribers.length] when [x] has no [subscribers], and for
    [for (... of x.subscribers)] then; the texts are V8's. *)
Definition undefined_includes_read : exn :=
  TypeError "Cannot read properties of undefined (reading 'includes')".
Definition undefined_length_read : exn :=
  TypeError "Cannot read properties of undefined (reading 'length')".
Definition subscribers_not_iterable : exn :=
  TypeError "action.subscribers is not iterable".

(** ** The registry *)

Record Action := mkAction {
  subscribers : list fn;
  func : option fn
}.

(** [this.actions]: the own properties. *)
Abbreviation registry := (gmap string Action).

(** The names every plain object inherits from [Object.prototype]
    (ECMAScript, 20.1.3 and B.2.2).  None of the inherited values is falsy,
    and none has a [subscribers] or a [func] property. *)
Definition Object_prototype : list string :=
  [ "constructor"; "hasOwnProperty"; "isPrototypeOf"; "propertyIsEnumerable";
    "toLocaleString"; "toString"; "valueOf"; "__proto__";
    "__defineGetter__"; "__defineSetter__"; "__lookupGetter__"; "__lookupSetter__" ].

(** The value of [this.actions[key]]. *)
Inductive property :=
| Own (action : Action)      (* a record of the registry *)
| Inherited                  (* a member of Object.prototype *)
| Undefined.

Definition get (actions : registry) (key : string) : property :=
  match actions !! key with
  | Some action => Own action
  | None => if bool_decide (key ∈ Object_prototype) then Inherited else Undefined
  end.

(** ** Method calls, requests and observations *)

(** A call of a method of the class. *)
Inductive op :=
| RegisterAsync (key func_ : jsval)
| Call (key : string) (data : jsval)
| Publish (key : string) (data : jsval)
| On (key callback : jsval)
| Unsubscribe (key : string) (callback : jsval).

(** What a user function can ask of the dispatcher: a method, or a [done]
    closure built by [buildDoneFunction key]. *)
Inductive request :=
| Method (o : op)
| ApplyDone (key : string) (data : jsval).

Inductive event :=
| InvokeHandler (f : fn) (done_key : string) (data : jsval)
    (* call applies f(done, data), with done = buildDoneFunction(done_key) *)
| InvokeSubscriber (key : string) (each : fn) (data : jsval)
    (* the publish of key applies each(data) *)
| Requests (q : request).
    (* a user function being run makes the request q *)

(** The payloads the publishes of [key] applied the subscriber [cb] to, in
    order. *)
Fixpoint calls_of (key : string) (cb : fn) (t : list event) : list jsval :=
  match t with
  | [] => []
  | InvokeSubscriber k each data :: t' =>
      if bool_decide (k = key ∧ each = cb) then data :: calls_of key cb t'
      else calls_of key cb t'
  | _ :: t' => calls_of key cb t'
  end.


(** The method calls the user functions made, in order. *)
Fixpoint requested_ops (t : list event) : list op :=
  match t with
  | [] => []
  | Requests (Method o) :: t' => o :: requested_ops t'
  | _ :: t' => requested_ops t'
  end.

(** ** The monad of the methods that run no user function *)

Inductive completion (A : Type) :=
| Normal (a : A)
| Throw (e : exn).
Arguments Normal {A} a.
Arguments Throw {A} e.

Definition M (A : Type) : Type := registry → completion A * registry * list event.

#[global] Instance M_ret : MRet M := λ A a r, (Normal a, r, []).

#[global] Instance M_bind : MBind M := λ A B k m r,
  match m r with
  | (Normal a, r', t) =>
      match k a r' with
      | (c, r'', t') => (c, r'', t ++ t')
      end
  | (Throw e, r', t) => (Throw e, r', t)
  end.

Definition throw {A} (e : exn) : M A := λ r, (Throw e, r, []).
Definition get_actions : M registry := λ r, (Normal r, r, []).
Definition put_actions (r' : registry) : M unit := λ _, (Normal (), r', []).

(** Projections of a run. *)
Definition result_of {C S} (x : C * S * list event) : C := x.1.1.
Definition state_of {C S} (x : C * S * list event) : S := x.1.2.
Definition trace_of {C S} (x : C * S * list event) : list event := x.2.

Definition returns {A} (x : completion A * registry * list event) : Prop :=
  ∃ a, result_of x = Normal a.

Definition throws {A} (x : completion A * registry * list event) (e : exn) : Prop :=
  result_of x = Throw e.

(** ** The methods that run no user function *)

(** [constructor(actions)]: every key of the object given is redefined as a
    record with no subscriber and no function; the values given are dropped. *)
Definition constructor (actions : gmap string jsval) : registry :=
  (λ _, {| subscribers := []; func := None |}) <$> actions.

(** [registerAsync(key, func)].  [key] is a [VString] exactly when
    [typeof key] is ["string"], [func] a [VFunction] exactly when
    [typeof func] is ["function"]; the key is tested first.  For an inherited
    name [this.actions[key]] is not [undefined] and its [func] is, which is
    not [null]. *)
Definition registerAsync (key func_ : jsval) : M unit :=
  match key with
  | VString k =>
    match func_ with
    | VFunction f =>
      actions ← get_actions;
      match get actions k with
      | Undefined =>
        throw (Error "Actions.registerAsync: action not declared, please add it to the constructor")
      | Inherited => throw (Error "Actions.registerAsync: action already registered")
      | Own action =>
        match func action with
        | Some _ => throw (Error "Actions.registerAsync: action already registered")
        | None => put_actions (<[k := {| subscribers := []; func := Some f |}]> actions)
        end
      end
    | _ => throw (TypeError "Actions.registerAsync: func argument must be a function")
    end
  | _ => throw (TypeError "Actions.registerAsync: key argument must be a string")
  end.

(** [on(key, callback)]; the result is [callback], or [undefined] when the
    function falls off its end.  [this.actions[key]] is not tested before
    its [subscribers] is read.  [push] is the array with [callback] at its
    end. *)
Definition on (key callback : jsval) : M jsval :=
  match key with
  | VString k =>
    match callback with
    | VFunction cb =>
      actions ← get_actions;
      match get actions k with
      | Undefined => throw undefined_property_read
      | Inherited => throw undefined_includes_read
      | Own action =>
        if bool_decide (cb ∈ subscribers action) then mret VUndefined
        else
          put_actions (<[k := {| subscribers := subscribers action ++ [cb];
                                 func := func action |}]> actions) ≫= λ _,
          mret callback
      end
    | _ => throw (TypeError "Actions.on: callback argument must be a function")
    end
  | _ => throw (TypeError "Actions.on: key argument must be a string")
  end.

(** The loop of [unsubscribe]: the first index [i], counted from [i0], with
    [callback === subscribers[i]]. *)
Fixpoint find_callback (callback : jsval) (subs : list fn) (i0 : nat) : option nat :=
  match subs with
  | [] => None
  | each :: subs' =>
      if strict_equals_fn callback each then Some i0
      else find_callback callback subs' (S i0)
  end.

(** [subs.splice(i, 1)] *)
Definition splice1 (i : nat) (subs : list fn) : list fn :=
  take i subs ++ drop (S i) subs.

(** [unsubscribe(key, callback)].  An inherited value passes the test
    [if (action)]; the loop then reads the [length] of its [subscribers]. *)
Definition unsubscribe (key : string) (callback : jsval) : M unit :=
  actions ← get_actions;
  match get actions key with
  | Own action =>
    match find_callback callback (subscribers action) 0 with
    | Some i =>
      put_actions (<[key := {| subscribers := splice1 i (subscribers action);
                               func := func action |}]> actions)
    | None => mret ()
    end
  | Inherited => throw undefined_length_read
  | Undefined => mret ()
  end.

(** ** User functions *)

(** What a user function does, seen from the dispatcher: it returns, it
    throws, or it makes a request and goes on with [k] from the outcome of
    the request - the value returned, or the exception thrown, which the
    function may catch; a function that does not catch has [k (Throw e)]
    equal to [Raise e]. *)
Inductive prog :=
| Return
| Raise (e : exn)
| Request (q : request) (k : completion jsval → prog).

(** The functions of the client: [each(data)] for a function applied as a
    subscriber, [f(done, data)] for one applied as a handler, [done] being
    the closure built for [done_key]. *)
Record user_functions := {
  subscriber_body : fn → jsval → prog;
  handler_body : fn → string → jsval → prog
}.

(** The function that lets the exception of a request pass. *)
Definition uncaught (p : prog) (c : completion jsval) : prog :=
  match c with
  | Normal _ => p
  | Throw e => Raise e
  end.

(** [done(result1); done(result2); ...] and nothing else. *)
Fixpoint apply_dones (key : string) (results : list jsval) : prog :=
  match results with
  | [] => Return
  | result :: results' => Request (ApplyDone key result) (uncaught (apply_dones key results'))
  end.

(** ** The methods that run user functions *)

(** The state of a run: the registry, and for the actions whose record
    [registerAsync] has redefined since the run began, the subscriber array
    of the record before.  [registerAsync] is the one place that gives a
    record another array, and does so once per action at most (from no
    function to a function); a [for...of] that began on the first array goes
    on walking it, while [on] and [unsubscribe] work on the array of the
    record in place. *)
Record machine := Machine {
  registry_of : registry;
  old_arrays : gmap string (list fn)
}.

(** A run from a machine state ends with a completion, or with [None] when
    the fuel is used up. *)
Definition Run (A : Type) : Type := machine → option (completion A) * machine * list event.

#[global] Instance Run_ret : MRet Run := λ A a s, (Some (Normal a), s, []).

#[global] Instance Run_bind : MBind Run := λ A B k m s,
  match m s with
  | (Some (Normal a), s', t) =>
      match k a s' with
      | (c, s'', t') => (c, s'', t ++ t')
      end
  | (Some (Throw e), s', t) => (Some (Throw e), s', t)
  | (None, s', t) => (None, s', t)
  end.

Definition Run_throw {A} (e : exn) : Run A := λ s, (Some (Throw e), s, []).
Definition out_of_fuel {A} : Run A := λ s, (None, s, []).
Definition emit (e : event) : Run unit := λ s, (Some (Normal ()), s, [e]).

(** A method that runs no user function, within a run. *)
Definition lift {A} (m : M A) : Run A := λ s,
  match m (registry_of s) with
  | (c, r', t) => (Some c, {| registry_of := r'; old_arrays := old_arrays s |}, t)
  end.

(** [registerAsync] within a run: when it redefines the record, the array of
    the record before is kept for the loops that walk it. *)
Definition registerAsync_run (key func_ : jsval) : Run unit := λ s,
  match registerAsync key func_ (registry_of s) with
  | (Normal u, r', t) =>
      (Some (Normal u),
       {| registry_of := r';
          old_arrays :=
            match key with
            | VString k =>
                match registry_of s !! k with
                | Some action => <[k := subscribers action]> (old_arrays s)
                | None => old_arrays s
                end
            | _ => old_arrays s
            end |}, t)
  | (Throw e, r', t) => (Some (Throw e), {| registry_of := r'; old_arrays := old_arrays s |}, t)
  end.

(** The array a [for...of] of [publish] walks, as it is now: the loop began
    on the array of the record of [key]; [first] tells that the record had no
    function then, so that the array is the constructor's. *)
Definition walked_array (key : string) (first : bool) (s : machine) : list fn :=
  match (if first then old_arrays s !! key else None) with
  | Some l => l
  | None =>
      match registry_of s !! key with
      | Some action => subscribers action
      | None => []
      end
  end.

Section Interpreter.

Variable code : user_functions.

(** The body of a user function is run; its requests are logged and served
    by [perform]. *)
Fixpoint run_prog (perform : request → Run jsval) (p : prog) : Run unit :=
  match p with
  | Return => mret ()
  | Raise e => Run_throw e
  | Request q k => λ s,
      match perform q s with
      | (Some c, s', t) =>
          match run_prog perform (k c) s' with
          | (c', s'', t') => (c', s'', Requests q :: t ++ t')
          end
      | (None, s', t) => (None, s', Requests q :: t)
      end
  end.

(** A subscriber is applied: [each(data)]. *)
Definition apply_subscriber (perform : request → Run jsval)
    (key : string) (each : fn) (data : jsval) : Run unit :=
  emit (InvokeSubscriber key each data) ≫= λ _,
  run_prog perform (subscriber_body code each data).

(** [for (const each of action.subscribers) each(data)], from index [i]: the
    iterator reads the array at each step and ends when the index is past its
    end; an exception of [each(data)] leaves the loop.  [n] bounds the number
    of steps. *)
Fixpoint publish_loop (perform : request → Run jsval) (n : nat)
    (key : string) (data : jsval) (first : bool) (i : nat) : Run unit := λ s,
  match walked_array key first s !! i with
  | None => (Some (Normal ()), s, [])
  | Some each =>
      match n with
      | 0 => (None, s, [])
      | S n' =>
          (apply_subscriber perform key each data ≫= λ _,
           publish_loop perform n' key data first (S i)) s
      end
  end.

(** [publish(key, data)].  An inherited value passes the test [if (action)];
    its [subscribers] is [undefined], which [for...of] cannot iterate. *)
Definition publish_with (perform : request → Run jsval) (n : nat)
    (key : string) (data : jsval) : Run unit := λ s,
  match get (registry_of s) key with
  | Own action => publish_loop perform n key data (bool_decide (func action = None)) 0 s
  | Inherited => Run_throw subscribers_not_iterable s
  | Undefined => (Some (Normal ()), s, [])
  end.

(** [buildDoneFunction(key)]: the closure [function(data) { actions.publish(key, data) }]. *)
Definition buildDoneFunction_with (perform : request → Run jsval) (n : nat)
    (key : string) : jsval → Run unit :=
  λ data, publish_with perform n key data.

(** A handler is applied: [f(done, data)] with [done] the closure built for
    [key]; the [ApplyDone] requests of the body are its applications. *)
Definition apply_handler (perform : request → Run jsval)
    (f : fn) (key : string) (data : jsval) : Run unit :=
  emit (InvokeHandler f key data) ≫= λ _,
  run_prog perform (handler_body code f key data).

(** [call(key, data)].  For an inherited value [typeof action.func] is
    ["undefined"], and [publish] is called. *)
Definition call_with (perform : request → Run jsval) (n : nat)
    (key : string) (data : jsval) : Run unit := λ s,
  match get (registry_of s) key with
  | Own action =>
      match func action with
      | Some f => apply_handler perform f key data s
      | None => publish_with perform n key data s
      end
  | Inherited => publish_with perform n key data s
  | Undefined => (Some (Normal ()), s, [])
  end.

(** A request of a user function is served.  [registerAsync], [on] and
    [unsubscribe] run no user function; the other requests do, and [fuel]
    bounds how deep user functions nest through the dispatcher, and how long
    each loop is. *)
Fixpoint perform (fuel : nat) (q : request) : Run jsval :=
  match q, fuel with
  | Method (RegisterAsync key func_), _ => registerAsync_run key func_ ≫= λ _, mret VUndefined
  | Method (On key callback), _ => lift (on key callback)
  | Method (Unsubscribe key callback), _ =>
      lift (unsubscribe key callback) ≫= λ _, mret VUndefined
  | _, 0 => out_of_fuel
  | Method (Call key data), S fuel' =>
      call_with (perform fuel') fuel' key data ≫= λ _, mret VUndefined
  | Method (Publish key data), S fuel' =>
      publish_with (perform fuel') fuel' key data ≫= λ _, mret VUndefined
  | ApplyDone key data, S fuel' =>
      buildDoneFunction_with (perform fuel') fuel' key data ≫= λ _, mret VUndefined
  end.

(** A call by the client, outside any user function: no loop is under way. *)
Definition top {A} (m : Run A) (r : registry) : option (completion A) * registry * list event :=
  match m {| registry_of := r; old_arrays := ∅ |} with
  | (c, s, t) => (c, registry_of s, t)
  end.

Definition publish (fuel : nat) (key : string) (data : jsval) :=
  top (publish_with (perform fuel) fuel key data).

Definition buildDoneFunction (fuel : nat) (key : string) :=
  λ data, top (buildDoneFunction_with (perform fuel) fuel key data).

Definition call (fuel : nat) (key : string) (data : jsval) :=
  top (call_with (perform fuel) fuel key data).

End Interpreter.

(** ** Clients: sequences of method calls *)

(** What one method call writes in the registry, whether it returns or
    throws.  [call] and [publish] write nothing themselves: what the user
    functions they run do to the registry is done through further method
    calls, which are calls of the sequence in their turn. *)
Definition exec (o : op) (r : registry) : registry :=
  match o with
  | RegisterAsync key f => state_of (registerAsync key f r)
  | Call key data => r
  | Publish key data => r
  | On key callback => state_of (on key callback r)
  | Unsubscribe key callback => state_of (unsubscribe key callback r)
  end.

Definition exec_all (ops : list op) (r : registry) : registry :=
  foldl (λ r o, exec o r) r ops.

(** The registries a client can build. *)
Definition reachable (r : registry) : Prop :=
  ∃ actions ops, r = exec_all ops (constructor actions).

(** No subscriber array holds a function twice. *)
Definition no_duplicates (r : registry) : Prop :=
  ∀ k action, r !! k = Some action → NoDup (subscribers action).

(** The three ways in which a record of the registry is replaced. *)
Inductive rewrites (action action' : Action) : Prop :=
| rewrites_register f :
    func action = None → subscribers action' = [] → func action' = Some f →
    rewrites action action'
| rewrites_push cb :
    cb ∉ subscribers action → subscribers action' = subscribers action ++ [cb] →
    func action' = func action →
    rewrites action action'
| rewrites_splice i :
    subscribers action' = splice1 i (subscribers action) →
    func action' = func action →
    rewrites action action'.

(** The events of [done(result1); done(result2); ...] on subscribers that
    return at once. *)
Definition done_events (key : string) (subs : list fn) (results : list jsval) : list event :=
  results ≫= λ result,
    Requests (ApplyDone key result) :: ((λ each, InvokeSubscriber key each result) <$> subs).


(** The registry at the end of a run is the registry at its start after the
    method calls the user functions made during the run. *)
Definition follows_requests (s s' : machine) (t : list event) : Prop :=
  registry_of s' = exec_all (requested_ops t) (registry_of s).


(** The request that subscribes [cb] to [name]. *)
Definition subscribes (name : string) (cb : fn) : event :=
  Requests (Method (On (VString name) (VFunction cb))).

Definition is_subscribes (name : string) (cb : fn) (e : event) : bool :=
  match e with
  | Requests (Method (On (VString k) (VFunction f))) => bool_decide (k = name ∧ f = cb)
  | _ => false
  end.

(** [cb] is in no array a publish of [name] can walk. *)
Definition not_subscribed (name : string) (cb : fn) (s : machine) : Prop :=
  (∀ action, registry_of s !! name = Some action → cb ∉ subscribers action) ∧
  (∀ l, old_arrays s !! name = Some l → cb ∉ l).

(** In the trace, every application of [cb] by a publish of [name] comes
    after a request that subscribes [cb] to [name]. *)
Definition applied_after_subscribed (name : string) (cb : fn) (t : list event) : Prop :=
  ∀ t1 data t2, t = t1 ++ InvokeSubscriber name cb data :: t2 → subscribes name cb ∈ t1.

Definition stays_unsubscribed (name : string) (cb : fn)
    (s s' : machine) (t : list event) : Prop :=
  not_subscribed name cb s →
  applied_after_subscribed name cb t ∧ (subscribes name cb ∉ t → not_subscribed name cb s').

(** The requests that publish to [name]: [done] of [name] applied, and
    [publish] or [call] called with [name]. *)
Definition publishes (name : string) (q : request) : bool :=
  match q with
  | ApplyDone key _ | Method (Publish key _) | Method (Call key _) => bool_decide (key = name)
  | _ => false
  end.

(** In the trace, every application of a subscriber by a publish of [name]
    comes after a request that publishes to [name]. *)
Definition applied_after_published (name : string) (t : list event) : Prop :=
  ∀ t1 each data t2, t = t1 ++ InvokeSubscriber name each data :: t2 →
    ∃ q, publishes name q = true ∧ Requests q ∈ t1.

(** The requests that do not publish to [name] are served without a
    subscriber of [name] being applied, unless a request made meanwhile
    publishes to [name]. *)
Definition gated_requests (name : string) (perform : request → Run jsval) : Prop :=
  ∀ q s, publishes name q = false → applied_after_published name (trace_of (perform q s)).

(** A property [Φ] of runs - from a state to a state with a trace - holds of
    a computation when it holds of its run from every state, and of the way
    requests are served when it holds of every request served, with its
    entry in the trace. *)
Definition sound (Φ : machine → machine → list event → Prop) {A} (m : Run A) : Prop :=
  ∀ s, Φ s (state_of (m s)) (trace_of (m s)).

Definition sound_request (Φ : machine → machine → list event → Prop)
    (perform : request → Run jsval) : Prop :=
  ∀ q s, Φ s (state_of (perform q s)) (Requests q :: trace_of (perform q s)).

(** A way to serve requests gives what another gives, where that one gives a
    completion. *)
Definition extends (p p' : request → Run jsval) : Prop :=
  ∀ q s c s' t, p q s = (Some c, s', t) → p' q s = (Some c, s', t).

(** ** Sample user functions *)

(** Subscribers: 1, 2 and 3 return at once; 4 throws; 5 unsubscribes itself
    from [ping] when it is applied (a listener for one occurrence); 6
    subscribes 2 to [ping].  Handlers: 7 is
    [(done, id) => done({ id, value: id * 2 })], 8 applies [done] twice, any
    other returns without applying [done]. *)
Definition example_functions : user_functions := {|
  subscriber_body each data :=
    match each with
    | 4 => Raise (Error "listener failed")
    | 5 => Request (Method (Unsubscribe "ping" (VFunction 5))) (uncaught Return)
    | 6 => Request (Method (On (VString "ping") (VFunction 2))) (uncaught Return)
    | _ => Return
    end;
  handler_body f done_key data :=
    match f, data with
    | 7, VNumber id =>
        apply_dones done_key [VObject [("id", VNumber id); ("value", VNumber (id * 2))]]
    | 8, _ => apply_dones done_key [data; data]
    | _, _ => Return
    end
|}.

(** ** The methods that run no user function: one run *)

Lemma get_own (r : registry) k action : r !! k = Some action → get r k = Own action.
Proof. intros Hk. unfold get. by rewrite Hk. Qed.

Lemma get_inherited (r : registry) k :
  r !! k = None → k ∈ Object_prototype → get r k = Inherited.
Proof. intros Hk Hin. unfold get. rewrite Hk. by rewrite bool_decide_eq_true_2. Qed.

Lemma get_undefined (r : registry) k :
  r !! k = None → k ∉ Object_prototype → get r k = Undefined.
Proof. intros Hk Hn. unfold get. rewrite Hk. by rewrite bool_decide_eq_false_2. Qed.

Ltac run_method :=
  unfold mbind, M_bind, mret, M_ret, get_actions, put_actions, throw; cbn.

Lemma registerAsync_fresh k f (r : registry) action :
  r !! k = Some action → func action = None →
  registerAsync (VString k) (VFunction f) r
  = (Normal (), <[k := {| subscribers := []; func := Some f |}]> r, []).
Proof.
  intros Hk Hf. unfold registerAsync. run_method.
  by rewrite (get_own _ _ _ Hk), Hf.
Qed.

Lemma registerAsync_registered k f (r : registry) action g :
  r !! k = Some action → func action = Some g →
  registerAsync (VString k) (VFunction f) r
  = (Throw (Error "Actions.registerAsync: action already registered"), r, []).
Proof.
  intros Hk Hf. unfold registerAsync. run_method.
  by rewrite (get_own _ _ _ Hk), Hf.
Qed.

Lemma registerAsync_inherited k f (r : registry) :
  r !! k = None → k ∈ Object_prototype →
  registerAsync (VString k) (VFunction f) r
  = (Throw (Error "Actions.registerAsync: action already registered"), r, []).
Proof.
  intros Hk Hin. unfold registerAsync. run_method. by rewrite get_inherited.
Qed.

Lemma registerAsync_undeclared k f (r : registry) :
  r !! k = None → k ∉ Object_prototype →
  registerAsync (VString k) (VFunction f) r
  = (Throw (Error "Actions.registerAsync: action not declared, please add it to the constructor"),
     r, []).
Proof.
  intros Hk Hn. unfold registerAsync. run_method. by rewrite get_undefined.
Qed.

(** Whatever the name that is not a key, [registerAsync] throws a state
    error and changes nothing. *)
Lemma registerAsync_not_own k f (r : registry) :
  r !! k = None →
  ∃ msg, registerAsync (VString k) (VFunction f) r = (Throw (Error msg), r, []).
Proof.
  intros Hk. destruct (decide (k ∈ Object_prototype)).
  - eexists. by apply registerAsync_inherited.
  - eexists. by apply registerAsync_undeclared.
Qed.

Lemma on_new k cb (r : registry) action :
  r !! k = Some action → cb ∉ subscribers action →
  on (VString k) (VFunction cb) r
  = (Normal (VFunction cb),
     <[k := {| subscribers := subscribers action ++ [cb]; func := func action |}]> r, []).
Proof.
  intros Hk Hn. unfold on. run_method. rewrite (get_own _ _ _ Hk).
  by rewrite bool_decide_eq_false_2.
Qed.

Lemma on_present k cb (r : registry) action :
  r !! k = Some action → cb ∈ subscribers action →
  on (VString k) (VFunction cb) r = (Normal VUndefined, r, []).
Proof.
  intros Hk Hn. unfold on. run_method. rewrite (get_own _ _ _ Hk).
  by rewrite bool_decide_eq_true_2.
Qed.

Lemma on_undeclared k cb (r : registry) :
  r !! k = None → k ∉ Object_prototype →
  on (VString k) (VFunction cb) r = (Throw undefined_property_read, r, []).
Proof. intros Hk Hn. unfold on. run_method. by rewrite get_undefined. Qed.

Lemma on_inherited k cb (r : registry) :
  r !! k = None → k ∈ Object_prototype →
  on (VString k) (VFunction cb) r = (Throw undefined_includes_read, r, []).
Proof. intros Hk Hn. unfold on. run_method. by rewrite get_inherited. Qed.

Lemma on_not_own k cb (r : registry) :
  r !! k = None →
  ∃ msg, on (VString k) (VFunction cb) r = (Throw (TypeError msg), r, []).
Proof.
  intros Hk. destruct (decide (k ∈ Object_prototype)).
  - eexists. by apply on_inherited.
  - eexists. by apply on_undeclared.
Qed.

Lemma unsubscribe_found key callback (r : registry) action i :
  r !! key = Some action →
  find_callback callback (subscribers action) 0 = Some i →
  unsubscribe key callback r
  = (Normal (),
     <[key := {| subscribers := splice1 i (subscribers action); func := func action |}]> r, []).
Proof.
  intros Hk Hf. unfold unsubscribe. run_method. by rewrite (get_own _ _ _ Hk), Hf.
Qed.

Lemma unsubscribe_not_found key callback (r : registry) action :
  r !! key = Some action →
  find_callback callback (subscribers action) 0 = None →
  unsubscribe key callback r = (Normal (), r, []).
Proof.
  intros Hk Hf. unfold unsubscribe. run_method. by rewrite (get_own _ _ _ Hk), Hf.
Qed.

Lemma unsubscribe_undeclared key callback (r : registry) :
  r !! key = None → key ∉ Object_prototype →
  unsubscribe key callback r = (Normal (), r, []).
Proof. intros Hk Hn. unfold unsubscribe. run_method. by rewrite get_undefined. Qed.

Lemma unsubscribe_inherited key callback (r : registry) :
  r !! key = None → key ∈ Object_prototype →
  unsubscribe key callback r = (Throw undefined_length_read, r, []).
Proof. intros Hk Hn. unfold unsubscribe. run_method. by rewrite get_inherited. Qed.

Lemma unsubscribe_not_own key callback (r : registry) :
  r !! key = None → ∃ c, unsubscribe key callback r = (c, r, []).
Proof.
  intros Hk. destruct (decide (key ∈ Object_prototype)).
  - eexists. by apply unsubscribe_inherited.
  - eexists. by apply unsubscribe_undeclared.
Qed.

(** The two outer matches of [registerAsync] and [on] are the source's
    [typeof] tests, in the source's order. *)
Lemma typeof_string v : typeof v = "string" ↔ ∃ s, v = VString s.
Proof. split; [|by intros [s ->]]. destruct v; try discriminate. eauto. Qed.

Lemma typeof_function v : typeof v = "function" ↔ ∃ f, v = VFunction f.
Proof. split; [|by intros [f ->]]. destruct v; try discriminate. eauto. Qed.

Lemma registerAsync_key_not_string key func_ (r : registry) :
  typeof key ≠ "string" →
  registerAsync key func_ r
  = (Throw (TypeError "Actions.registerAsync: key argument must be a string"), r, []).
Proof. intros Ht. by destruct key. Qed.

Lemma registerAsync_func_not_function key func_ (r : registry) :
  typeof key = "string" → typeof func_ ≠ "function" →
  registerAsync key func_ r
  = (Throw (TypeError "Actions.registerAsync: func argument must be a function"), r, []).
Proof. intros [k ->]%typeof_string Ht. by destruct func_. Qed.

Lemma on_key_not_string key callback (r : registry) :
  typeof key ≠ "string" →
  on key callback r = (Throw (TypeError "Actions.on: key argument must be a string"), r, []).
Proof. intros Ht. by destruct key. Qed.

Lemma on_callback_not_function key callback (r : registry) :
  typeof key = "string" → typeof callback ≠ "function" →
  on key callback r
  = (Throw (TypeError "Actions.on: callback argument must be a function"), r, []).
Proof. intros [k ->]%typeof_string Ht. by destruct callback. Qed.

(** *** The loop of [unsubscribe] *)

Lemma find_callback_not_function callback subs i0 :
  typeof callback ≠ "function" → find_callback callback subs i0 = None.
Proof.
  intros Ht. revert i0. induction subs as [|x subs IH]; intros i0; [done|].
  cbn. destruct callback; cbn; try apply IH. done.
Qed.

Lemma find_callback_None cb subs i0 :
  find_callback (VFunction cb) subs i0 = None ↔ cb ∉ subs.
Proof.
  revert i0. induction subs as [|x subs IH]; intros i0; cbn.
  - split; [intros _; apply not_elem_of_nil|done].
  - case_bool_decide as Heq.
    + subst x. split; [done|]. intros Hn. exfalso. apply Hn. left.
    + rewrite IH, not_elem_of_cons. split; [|by intros [_ ?]].
      intros Hn. split; [congruence|done].
Qed.

Lemma find_callback_Some cb subs i0 i :
  find_callback (VFunction cb) subs i0 = Some i →
  ∃ l1 l2, subs = l1 ++ cb :: l2 ∧ (cb ∉ l1) ∧ i = (i0 + length l1)%nat.
Proof.
  revert i0. induction subs as [|x subs IH]; intros i0; cbn; [done|].
  case_bool_decide as Heq.
  - intros [= <-]. subst x. exists [], subs. split_and!; [done|apply not_elem_of_nil|cbn; lia].
  - intros Hf. destruct (IH _ Hf) as (l1 & l2 & -> & Hn & ->).
    exists (x :: l1), l2. split_and!; [done| |cbn; lia].
    apply not_elem_of_cons. split; [congruence|done].
Qed.

Lemma find_callback_middle (cb : fn) (l1 l2 : list fn) (i0 : nat) :
  cb ∉ l1 → find_callback (VFunction cb) (l1 ++ cb :: l2) i0 = Some (i0 + length l1)%nat.
Proof.
  revert i0. induction l1 as [|x l1 IH]; intros i0 Hn; cbn.
  - rewrite bool_decide_eq_true_2 by done. f_equal. lia.
  - apply not_elem_of_cons in Hn as [Hne Hn].
    rewrite bool_decide_eq_false_2 by done. rewrite IH by done. f_equal. lia.
Qed.

Lemma splice1_middle (l1 l2 : list fn) x : splice1 (length l1) (l1 ++ x :: l2) = l1 ++ l2.
Proof.
  unfold splice1. rewrite take_app_length.
  rewrite drop_app_ge by lia.
  by replace (S (length l1) - length l1) with 1 by lia.
Qed.

Lemma splice1_delete (i : nat) (subs : list fn) : splice1 i subs = delete i subs.
Proof. unfold splice1. by rewrite delete_take_drop. Qed.

Lemma action_eta (action : Action) :
  {| subscribers := subscribers action; func := func action |} = action.
Proof. by destruct action. Qed.



Lemma filter_ne_notin (cb : fn) (l : list fn) : cb ∉ l → filter (λ x, x ≠ cb) l = l.
Proof.
  induction l as [|x l IH]; [done|]. intros Hn.
  apply not_elem_of_cons in Hn as [Hne Hn].
  rewrite filter_cons_True by congruence. f_equal. auto.
Qed.

(** With no duplicate in the array, [unsubscribe] filters the callback out. *)
Lemma unsubscribe_filter (r : registry) (key : string) (action : Action) (cb : fn) :
  r !! key = Some action → NoDup (subscribers action) →
  unsubscribe key (VFunction cb) r
  = (Normal (),
     <[key := {| subscribers := filter (λ x, x ≠ cb) (subscribers action);
                 func := func action |}]> r, []).
Proof.
  intros Hk Hnd.
  destruct (find_callback (VFunction cb) (subscribers action) 0) as [i|] eqn:Hfind.
  - destruct (find_callback_Some _ _ _ _ Hfind) as (l1 & l2 & Hsubs & Hn1 & ->).
    assert (cb ∉ l2) as Hn2.
    { rewrite Hsubs in Hnd. apply NoDup_app in Hnd as (_ & _ & Hnd).
      by apply NoDup_cons in Hnd as [? _]. }
    erewrite unsubscribe_found by done. cbn [Nat.add].
    rewrite Hsubs, splice1_middle.
    rewrite filter_app, filter_cons_False by (intros Hne; by apply Hne).
    by rewrite !filter_ne_notin.
  - apply find_callback_None in Hfind as Hn.
    erewrite unsubscribe_not_found by done.
    by rewrite filter_ne_notin, action_eta, insert_id.
Qed.

(** ** What a method call can do to the registry *)

(** A method call leaves the registry as it was or replaces the record of
    one declared action. *)
Lemma exec_cases (o : op) (r : registry) :
  exec o r = r ∨
  ∃ k action action',
    r !! k = Some action ∧ exec o r = <[k := action']> r ∧
    rewrites action action'.
Proof.
  destruct o as [key f|key data|key data|key callback|key callback]; cbn [exec];
    [|by left|by left| |].
  - destruct key as [| | | |k| |]; try (by left).
    destruct f as [| | | | | |f]; try (by left).
    destruct (r !! k) as [a|] eqn:Hk;
      [|left; by destruct (registerAsync_not_own k f r Hk) as [msg ->]].
    destruct (func a) as [g|] eqn:Hf; [left; by erewrite registerAsync_registered|].
    right. exists k, a, {| subscribers := []; func := Some f |}.
    split_and!; [done|by erewrite registerAsync_fresh|by eapply rewrites_register].
  - destruct key as [| | | |k| |]; try (by left).
    destruct callback as [| | | | | |cb]; try (by left).
    destruct (r !! k) as [a|] eqn:Hk;
      [|left; by destruct (on_not_own k cb r Hk) as [msg ->]].
    destruct (decide (cb ∈ subscribers a)) as [Hin|Hn]; [left; by erewrite on_present|].
    right. exists k, a, {| subscribers := subscribers a ++ [cb]; func := func a |}.
    split_and!; [done|by erewrite on_new|by eapply rewrites_push].
  - destruct (r !! key) as [a|] eqn:Hk;
      [|left; by destruct (unsubscribe_not_own key callback r Hk) as [c ->]].
    destruct (find_callback callback (subscribers a) 0) as [i|] eqn:Hf;
      [|left; by erewrite unsubscribe_not_found].
    right. exists key, a, {| subscribers := splice1 i (subscribers a); func := func a |}.
    split_and!; [done|by erewrite unsubscribe_found|by eapply rewrites_splice].
Qed.

(** The declared names never change. *)
Lemma exec_declared (o : op) (r : registry) k :
  is_Some (exec o r !! k) ↔ is_Some (r !! k).
Proof.
  destruct (exec_cases o r) as [->|(k' & a & a' & Hk & -> & _)]; [done|].
  destruct (decide (k' = k)) as [->|Hne].
  - rewrite lookup_insert_eq, Hk. split; eauto.
  - by rewrite lookup_insert_ne.
Qed.

Lemma exec_all_cons (o : op) (ops : list op) (r : registry) :
  exec_all (o :: ops) r = exec_all ops (exec o r).
Proof. reflexivity. Qed.

Lemma exec_all_app (ops1 ops2 : list op) (r : registry) :
  exec_all (ops1 ++ ops2) r = exec_all ops2 (exec_all ops1 r).
Proof. unfold exec_all. by rewrite foldl_app. Qed.

Lemma exec_all_declared (ops : list op) (r : registry) k :
  is_Some (exec_all ops r !! k) ↔ is_Some (r !! k).
Proof.
  revert r. induction ops as [|o ops IH]; intros r; [done|].
  rewrite exec_all_cons, IH. apply exec_declared.
Qed.

Lemma lookup_constructor (actions : gmap string jsval) k :
  constructor actions !! k
  = if actions !! k is Some _ then Some {| subscribers := []; func := None |} else None.
Proof. unfold constructor. rewrite lookup_fmap. by destruct (actions !! k). Qed.

Lemma exec_all_undeclared (actions : gmap string jsval) (ops : list op) k :
  actions !! k = None → exec_all ops (constructor actions) !! k = None.
Proof.
  intros Hk. apply eq_None_not_Some. rewrite exec_all_declared, lookup_constructor, Hk.
  by intros [? ?].
Qed.

(** A function, once registered, stays. *)
Lemma exec_func_attached (o : op) (r : registry) k action f :
  r !! k = Some action → func action = Some f →
  ∃ action', exec o r !! k = Some action' ∧ func action' = Some f.
Proof.
  intros Hk Hf.
  destruct (exec_cases o r) as [->|(k' & a & a' & Hk' & -> & Hrw)]; [eauto|].
  destruct (decide (k' = k)) as [->|Hne].
  - rewrite lookup_insert_eq. exists a'. split; [done|].
    rewrite Hk in Hk'. injection Hk' as <-.
    destruct Hrw as [g Hnone _ _|cb _ _ Hsame|i _ Hsame]; congruence.
  - rewrite lookup_insert_ne by done. eauto.
Qed.

Lemma exec_all_func_attached (ops : list op) (r : registry) k action f :
  r !! k = Some action → func action = Some f →
  ∃ action', exec_all ops r !! k = Some action' ∧ func action' = Some f.
Proof.
  revert r action. induction ops as [|o ops IH]; intros r action Hk Hf; [eauto|].
  rewrite exec_all_cons.
  destruct (exec_func_attached o r k action f Hk Hf) as (a' & Hk' & Hf').
  by eapply IH.
Qed.

Lemma rewrites_NoDup action action' :
  rewrites action action' → NoDup (subscribers action) → NoDup (subscribers action').
Proof.
  intros [f _ -> _|cb Hn -> _|i -> _] Hnd.
  - apply NoDup_nil_2.
  - apply NoDup_app. split_and!; [done| |apply NoDup_singleton].
    intros x Hx Hx'. apply list_elem_of_singleton in Hx'. by subst x.
  - rewrite splice1_delete. eapply sublist_NoDup; [done|apply sublist_delete].
Qed.

Lemma constructor_no_duplicates (actions : gmap string jsval) :
  no_duplicates (constructor actions).
Proof.
  intros k a. rewrite lookup_constructor.
  destruct (actions !! k); [|done]. intros [= <-]. apply NoDup_nil_2.
Qed.

Lemma exec_no_duplicates (o : op) (r : registry) :
  no_duplicates r → no_duplicates (exec o r).
Proof.
  intros Hr. destruct (exec_cases o r) as [->|(k' & a & a' & Hk' & -> & Hrw)]; [done|].
  intros k b. destruct (decide (k' = k)) as [->|Hne].
  - rewrite lookup_insert_eq. intros [= <-]. eapply rewrites_NoDup; eauto.
  - rewrite lookup_insert_ne by done. apply Hr.
Qed.

Lemma exec_all_no_duplicates (ops : list op) (r : registry) :
  no_duplicates r → no_duplicates (exec_all ops r).
Proof.
  revert r. induction ops as [|o ops IH]; intros r Hr; [done|].
  rewrite exec_all_cons. apply IH. by apply exec_no_duplicates.
Qed.

Lemma reachable_no_duplicates (r : registry) : reachable r → no_duplicates r.
Proof.
  intros (actions & ops & ->).
  apply exec_all_no_duplicates, constructor_no_duplicates.
Qed.

Lemma reachable_exec_all (ops : list op) (r : registry) :
  reachable r → reachable (exec_all ops r).
Proof.
  intros (actions & ops0 & ->). exists actions, (ops0 ++ ops). by rewrite exec_all_app.
Qed.

(** ** The methods that run user functions: runs *)

Section Runs.

Variable code : user_functions.

Lemma get_lookup (r : registry) k action : get r k = Own action ↔ r !! k = Some action.
Proof.
  unfold get. destruct (r !! k) as [a|]; [|case_bool_decide]; split; intros [=]; by subst.
Qed.

Lemma apply_subscriber_returns (perform : request → Run jsval) key each data s :
  subscriber_body code each data = Return →
  apply_subscriber code perform key each data s
  = (Some (Normal ()), s, [InvokeSubscriber key each data]).
Proof. intros Hb. unfold apply_subscriber. by rewrite Hb. Qed.


(** The loop over subscribers that return at once: it applies them in the
    order of the array and goes on after them, the array being what it was. *)
Lemma publish_loop_prefix (perform : request → Run jsval) key data first s (l1 : list fn) :
  ∀ n i,
  (∀ each, each ∈ l1 → subscriber_body code each data = Return) →
  take (length l1) (drop i (walked_array key first s)) = l1 →
  publish_loop code perform (length l1 + n) key data first i s
  = (result_of (publish_loop code perform n key data first (i + length l1) s),
     state_of (publish_loop code perform n key data first (i + length l1) s),
     ((λ each, InvokeSubscriber key each data) <$> l1)
       ++ trace_of (publish_loop code perform n key data first (i + length l1) s)).
Proof.
  induction l1 as [|each l1 IH]; intros n i Hret Harr.
  - cbn [length Nat.add]. rewrite Nat.add_0_r.
    by destruct (publish_loop code perform n key data first i s) as [[c s'] t].
  - assert (walked_array key first s !! i = Some each) as Hi.
    { rewrite <- (Nat.add_0_r i), <- lookup_drop.
      destruct (drop i (walked_array key first s)) as [|x l]; [done|].
      cbn in Harr. injection Harr as -> _. done. }
    assert (take (length l1) (drop (S i) (walked_array key first s)) = l1) as Harr'.
    { replace (S i) with (i + 1) by lia. rewrite <- drop_drop.
      destruct (drop i (walked_array key first s)) as [|x l]; [done|].
      cbn in Harr. injection Harr as _ Hl. done. }
    cbn [length Nat.add publish_loop]. rewrite Hi.
    unfold mbind at 1, Run_bind at 1.
    rewrite apply_subscriber_returns by (apply Hret; left).
    rewrite IH; [|intros x Hx; apply Hret; by right|done].
    replace (S i + length l1) with (i + S (length l1)) by lia.
    done.
Qed.

Lemma publish_loop_end (perform : request → Run jsval) key data first s n i :
  length (walked_array key first s) ≤ i →
  publish_loop code perform n key data first i s = (Some (Normal ()), s, []).
Proof.
  intros Hi. destruct n; cbn; by rewrite lookup_ge_None_2.
Qed.


(** One step of the loop, over a subscriber that returns. *)
Lemma publish_loop_step (perform : request → Run jsval) key data first s n i each s1 t1 :
  walked_array key first s !! i = Some each →
  apply_subscriber code perform key each data s = (Some (Normal ()), s1, t1) →
  publish_loop code perform (S n) key data first i s
  = (result_of (publish_loop code perform n key data first (S i) s1),
     state_of (publish_loop code perform n key data first (S i) s1),
     t1 ++ trace_of (publish_loop code perform n key data first (S i) s1)).
Proof.
  intros Hi Happly. cbn [publish_loop]. rewrite Hi.
  unfold mbind, Run_bind. rewrite Happly.
  by destruct (publish_loop code perform n key data first (S i) s1) as [[c s'] t].
Qed.

Lemma walked_array_start key first (r : registry) action :
  r !! key = Some action →
  walked_array key first {| registry_of := r; old_arrays := ∅ |} = subscribers action.
Proof.
  intros Hk. unfold walked_array. cbn. rewrite lookup_empty, Hk. by destruct first.
Qed.

Lemma walked_array_live key (s : machine) action :
  registry_of s !! key = Some action →
  old_arrays s !! key = None ∨ func action ≠ None →
  walked_array key (bool_decide (func action = None)) s = subscribers action.
Proof.
  intros Hk Hlive. unfold walked_array. rewrite Hk.
  case_bool_decide as Hf; [|done].
  destruct Hlive as [->|?]; done.
Qed.

(** [publish] on a declared action whose subscribers return at once. *)
Lemma publish_with_inert (perform : request → Run jsval) (n : nat) key data (s : machine) action :
  registry_of s !! key = Some action →
  old_arrays s !! key = None ∨ func action ≠ None →
  (∀ each, each ∈ subscribers action → subscriber_body code each data = Return) →
  length (subscribers action) ≤ n →
  publish_with code perform n key data s
  = (Some (Normal ()), s, (λ each, InvokeSubscriber key each data) <$> subscribers action).
Proof.
  intros Hk Hlive Hret Hfuel. unfold publish_with.
  rewrite (get_own _ _ _ Hk).
  pose proof (walked_array_live key s action Hk Hlive) as Harr.
  replace n with (length (subscribers action) + (n - length (subscribers action))) by lia.
  rewrite publish_loop_prefix; [|done|]; cycle 1.
  { rewrite Harr, drop_0. by apply take_ge. }
  rewrite publish_loop_end; [|rewrite Harr; cbn; lia].
  cbn. by rewrite app_nil_r.
Qed.

Lemma publish_inert (fuel : nat) key data (r : registry) action :
  r !! key = Some action →
  (∀ each, each ∈ subscribers action → subscriber_body code each data = Return) →
  length (subscribers action) ≤ fuel →
  publish code fuel key data r
  = (Some (Normal ()), r, (λ each, InvokeSubscriber key each data) <$> subscribers action).
Proof.
  intros Hk Hret Hfuel. unfold publish, top.
  rewrite (publish_with_inert _ _ _ _ _ action); [done|done| |done|done].
  left. apply lookup_empty.
Qed.


Lemma run_prog_request (perform : request → Run jsval) q k (s : machine) :
  run_prog perform (Request q k) s
  = match perform q s with
    | (Some c, s', t) =>
        (result_of (run_prog perform (k c) s'), state_of (run_prog perform (k c) s'),
         Requests q :: t ++ trace_of (run_prog perform (k c) s'))
    | (None, s', t) => (None, s', Requests q :: t)
    end.
Proof.
  cbn [run_prog]. destruct (perform q s) as [[[c|] s'] t]; [|done].
  by destruct (run_prog perform (k c) s') as [[c' s''] t'].
Qed.

Lemma perform_done (fuel : nat) key data :
  perform code (S fuel) (ApplyDone key data)
  = buildDoneFunction_with code (perform code fuel) fuel key data ≫= λ _, mret VUndefined.
Proof. reflexivity. Qed.

Lemma perform_call (fuel : nat) key data :
  perform code (S fuel) (Method (Call key data))
  = call_with code (perform code fuel) fuel key data ≫= λ _, mret VUndefined.
Proof. reflexivity. Qed.

Lemma perform_publish (fuel : nat) key data :
  perform code (S fuel) (Method (Publish key data))
  = publish_with code (perform code fuel) fuel key data ≫= λ _, mret VUndefined.
Proof. reflexivity. Qed.

Lemma perform_registerAsync (fuel : nat) key func_ :
  perform code fuel (Method (RegisterAsync key func_))
  = registerAsync_run key func_ ≫= λ _, mret VUndefined.
Proof. by destruct fuel. Qed.

Lemma perform_on (fuel : nat) key callback :
  perform code fuel (Method (On key callback)) = lift (on key callback).
Proof. by destruct fuel. Qed.

Lemma perform_unsubscribe (fuel : nat) key callback :
  perform code fuel (Method (Unsubscribe key callback))
  = lift (unsubscribe key callback) ≫= λ _, mret VUndefined.
Proof. by destruct fuel. Qed.

Lemma run_apply_dones (fuel : nat) key (results : list jsval) (s : machine) action :
  registry_of s !! key = Some action →
  old_arrays s !! key = None ∨ func action ≠ None →
  (∀ each data, each ∈ subscribers action → subscriber_body code each data = Return) →
  length (subscribers action) ≤ fuel →
  run_prog (perform code (S fuel)) (apply_dones key results) s
  = (Some (Normal ()), s, done_events key (subscribers action) results).
Proof.
  intros Hk Hlive Hret Hfuel. induction results as [|result results IH]; [done|].
  cbn [apply_dones]. rewrite run_prog_request, perform_done.
  unfold buildDoneFunction_with, mbind, Run_bind.
  rewrite (publish_with_inert _ _ _ _ _ action); [|done|done|by eauto|done].
  cbn [mret Run_ret uncaught]. rewrite IH. unfold done_events. cbn.
  by rewrite app_nil_r.
Qed.

(** [call] on an action with a function that applies [done] and does
    nothing else, the subscribers returning at once. *)
Lemma call_handler_dones (fuel : nat) key data (r : registry) action f results :
  r !! key = Some action → func action = Some f →
  handler_body code f key data = apply_dones key results →
  (∀ each d, each ∈ subscribers action → subscriber_body code each d = Return) →
  length (subscribers action) < fuel →
  call code fuel key data r
  = (Some (Normal ()), r,
     InvokeHandler f key data :: done_events key (subscribers action) results).
Proof.
  intros Hk Hf Hbody Hret Hfuel. unfold call, top, call_with. cbn [registry_of].
  rewrite (get_own _ _ _ Hk), Hf. unfold apply_handler. rewrite Hbody.
  destruct fuel as [|fuel]; [lia|].
  unfold mbind, Run_bind. cbn [emit].
  rewrite (run_apply_dones _ _ _ _ action); [done|done| |done|lia].
  right. by rewrite Hf.
Qed.



Lemma publish_undefined (fuel : nat) key data (r : registry) :
  r !! key = None → key ∉ Object_prototype →
  publish code fuel key data r = (Some (Normal ()), r, []).
Proof.
  intros Hk Hn. unfold publish, top, publish_with. cbn [registry_of].
  by rewrite get_undefined.
Qed.

Lemma publish_inherited (fuel : nat) key data (r : registry) :
  r !! key = None → key ∈ Object_prototype →
  publish code fuel key data r = (Some (Throw subscribers_not_iterable), r, []).
Proof.
  intros Hk Hn. unfold publish, top, publish_with. cbn [registry_of].
  by rewrite get_inherited.
Qed.


Lemma call_undefined (fuel : nat) key data (r : registry) :
  r !! key = None → key ∉ Object_prototype →
  call code fuel key data r = (Some (Normal ()), r, []).
Proof.
  intros Hk Hn. unfold call, top, call_with. cbn [registry_of].
  by rewrite get_undefined.
Qed.

Lemma call_inherited (fuel : nat) key data (r : registry) :
  r !! key = None → key ∈ Object_prototype →
  call code fuel key data r = (Some (Throw subscribers_not_iterable), r, []).
Proof.
  intros Hk Hn. unfold call, top, call_with, publish_with. cbn [registry_of].
  by rewrite get_inherited.
Qed.

End Runs.

(** ** Fuel *)

(** A run that ends with a completion ends in the same way, in the same
    state and with the same trace, when it is given more fuel. *)
Section Fuel.

Variable code : user_functions.

Lemma bind_Some_inv {A B} (m : Run A) (k : A → Run B) s c s' t :
  (m ≫= k) s = (Some c, s', t) →
  (∃ e, m s = (Some (Throw e), s', t) ∧ c = Throw e) ∨
  (∃ a s1 t1 t2, m s = (Some (Normal a), s1, t1) ∧ k a s1 = (Some c, s', t2) ∧ t = t1 ++ t2).
Proof.
  unfold mbind, Run_bind. destruct (m s) as [[[[a|e]|] s1] t1].
  - destruct (k a s1) as [[c2 s2] t2] eqn:Hk. intros [= -> -> <-].
    right. by eexists _, _, _, _.
  - intros [= <- <- <-]. left. by eexists.
  - intros [=].
Qed.

Lemma bind_Some_mono {A B} (m m' : Run A) (k k' : A → Run B) s c s' t :
  (∀ c1 s1 t1, m s = (Some c1, s1, t1) → m' s = (Some c1, s1, t1)) →
  (∀ a s1 c2 s2 t2, k a s1 = (Some c2, s2, t2) → k' a s1 = (Some c2, s2, t2)) →
  (m ≫= k) s = (Some c, s', t) → (m' ≫= k') s = (Some c, s', t).
Proof.
  intros Hm Hk Hrun.
  apply bind_Some_inv in Hrun as [(e & Hms & ->)|(a & s1 & t1 & t2 & Hms & Hks & ->)].
  - unfold mbind, Run_bind. by rewrite (Hm _ _ _ Hms).
  - unfold mbind, Run_bind. by rewrite (Hm _ _ _ Hms), (Hk _ _ _ _ _ Hks).
Qed.

Lemma run_prog_mono (p p' : request → Run jsval) (body : prog) s c s' t :
  extends p p' →
  run_prog p body s = (Some c, s', t) → run_prog p' body s = (Some c, s', t).
Proof.
  intros Hext. revert s c s' t.
  induction body as [|e|q k IH]; intros s c s' t; [done|done|].
  cbn [run_prog].
  destruct (p q s) as [[[c1|] s1] t1] eqn:Hp; [|done].
  rewrite (Hext _ _ _ _ _ Hp).
  destruct (run_prog p (k c1) s1) as [[[c2|] s2] t2] eqn:Hk; [|done].
  by rewrite (IH _ _ _ _ _ Hk).
Qed.

Lemma publish_loop_mono (p p' : request → Run jsval) (n n' : nat) key data first i s c s' t :
  extends p p' → n ≤ n' →
  publish_loop code p n key data first i s = (Some c, s', t) →
  publish_loop code p' n' key data first i s = (Some c, s', t).
Proof.
  intros Hext. revert n' i s c s' t.
  induction n as [|n IH]; intros n' i s c s' t Hn.
  - destruct n' as [|n']; cbn [publish_loop];
      by destruct (walked_array key first s !! i).
  - destruct n' as [|n']; [lia|]. cbn [publish_loop].
    destruct (walked_array key first s !! i) as [each|]; [|done].
    apply bind_Some_mono.
    + intros c1 s1 t1. unfold apply_subscriber. apply bind_Some_mono; [done|].
      intros _ s2 c2 s3 t2. by apply run_prog_mono.
    + intros _ s1 c2 s2 t2. apply IH. lia.
Qed.

Lemma publish_with_mono (p p' : request → Run jsval) (n n' : nat) key data s c s' t :
  extends p p' → n ≤ n' →
  publish_with code p n key data s = (Some c, s', t) →
  publish_with code p' n' key data s = (Some c, s', t).
Proof.
  intros Hext Hn. unfold publish_with.
  destruct (get (registry_of s) key) as [action| |]; [|done|done].
  by apply publish_loop_mono.
Qed.

Lemma call_with_mono (p p' : request → Run jsval) (n n' : nat) key data s c s' t :
  extends p p' → n ≤ n' →
  call_with code p n key data s = (Some c, s', t) →
  call_with code p' n' key data s = (Some c, s', t).
Proof.
  intros Hext Hn. unfold call_with.
  destruct (get (registry_of s) key) as [action| |]; [| |done].
  - destruct (func action) as [f|]; [|by apply publish_with_mono].
    unfold apply_handler. apply bind_Some_mono; [done|].
    intros _ s2 c2 s3 t2. by apply run_prog_mono.
  - by apply publish_with_mono.
Qed.

Lemma perform_S (fuel : nat) : extends (perform code fuel) (perform code (S fuel)).
Proof.
  induction fuel as [|fuel IH]; intros q s c s' t.
  - destruct q as [[key func_|key data|key data|key callback|key callback]|key data];
      done.
  - destruct q as [[key func_|key data|key data|key callback|key callback]|key data];
      try done.
    + change (perform code (S (S fuel)) (Method (Call key data)))
        with (call_with code (perform code (S fuel)) (S fuel) key data ≫= λ _, mret VUndefined).
      change (perform code (S fuel) (Method (Call key data)))
        with (call_with code (perform code fuel) fuel key data ≫= λ _, mret VUndefined).
      apply bind_Some_mono; [|done].
      intros c1 s1 t1. apply call_with_mono; [done|lia].
    + change (perform code (S (S fuel)) (Method (Publish key data)))
        with (publish_with code (perform code (S fuel)) (S fuel) key data ≫= λ _, mret VUndefined).
      change (perform code (S fuel) (Method (Publish key data)))
        with (publish_with code (perform code fuel) fuel key data ≫= λ _, mret VUndefined).
      apply bind_Some_mono; [|done].
      intros c1 s1 t1. apply publish_with_mono; [done|lia].
    + change (perform code (S (S fuel)) (ApplyDone key data))
        with (publish_with code (perform code (S fuel)) (S fuel) key data ≫= λ _, mret VUndefined).
      change (perform code (S fuel) (ApplyDone key data))
        with (publish_with code (perform code fuel) fuel key data ≫= λ _, mret VUndefined).
      apply bind_Some_mono; [|done].
      intros c1 s1 t1. apply publish_with_mono; [done|lia].
Qed.

Lemma perform_mono (fuel fuel' : nat) :
  fuel ≤ fuel' → extends (perform code fuel) (perform code fuel').
Proof.
  induction 1 as [|fuel' _ IH]; [by intros q s c s' t|].
  intros q s c s' t Hrun. by apply perform_S, IH.
Qed.

Lemma top_Some_inv {A} (m : Run A) (r : registry) c r' t :
  top m r = (Some c, r', t) →
  ∃ s', m {| registry_of := r; old_arrays := ∅ |} = (Some c, s', t) ∧ registry_of s' = r'.
Proof.
  unfold top. destruct (m _) as [[c1 s1] t1]. intros [= -> <- ->]. by eexists.
Qed.

Lemma publish_mono (fuel fuel' : nat) key data (r : registry) c r' t :
  fuel ≤ fuel' →
  publish code fuel key data r = (Some c, r', t) →
  publish code fuel' key data r = (Some c, r', t).
Proof.
  intros Hle Hrun. apply top_Some_inv in Hrun as (s' & Hrun & <-).
  unfold publish, top.
  by rewrite (publish_with_mono _ _ _ _ _ _ _ _ _ _ (perform_mono _ _ Hle) Hle Hrun).
Qed.

Lemma call_mono (fuel fuel' : nat) key data (r : registry) c r' t :
  fuel ≤ fuel' →
  call code fuel key data r = (Some c, r', t) →
  call code fuel' key data r = (Some c, r', t).
Proof.
  intros Hle Hrun. apply top_Some_inv in Hrun as (s' & Hrun & <-).
  unfold call, top.
  by rewrite (call_with_mono _ _ _ _ _ _ _ _ _ _ (perform_mono _ _ Hle) Hle Hrun).
Qed.

End Fuel.

(** ** An induction principle for runs *)

(** A property [Φ s s' t] of the runs - from the state [s] to the state [s']
    with the trace [t] - holds of every run, finished or cut short by the
    fuel, when it holds of the empty run, is kept by sequencing, and holds of
    each step a run is made of: a subscriber taken from the walked array is
    applied, the registered function is applied, a user function calls
    [registerAsync], [on] or [unsubscribe], a user function makes a request
    that runs user functions in its turn. *)
Section RunInduction.

Variable code : user_functions.
Variable Φ : machine → machine → list event → Prop.

Hypothesis Φ_refl : ∀ s, Φ s s [].
Hypothesis Φ_trans : ∀ s1 s2 s3 t1 t2, Φ s1 s2 t1 → Φ s2 s3 t2 → Φ s1 s3 (t1 ++ t2).
Hypothesis Φ_subscriber : ∀ s key first i each data,
  walked_array key first s !! i = Some each → Φ s s [InvokeSubscriber key each data].
Hypothesis Φ_handler : ∀ s key action f data,
  registry_of s !! key = Some action → func action = Some f →
  Φ s s [InvokeHandler f key data].
Hypothesis Φ_registerAsync : ∀ s key func_,
  Φ s (state_of (registerAsync_run key func_ s)) [Requests (Method (RegisterAsync key func_))].
Hypothesis Φ_on : ∀ s key callback,
  Φ s (state_of (lift (on key callback) s)) [Requests (Method (On key callback))].
Hypothesis Φ_unsubscribe : ∀ s key callback,
  Φ s (state_of (lift (unsubscribe key callback) s))
    [Requests (Method (Unsubscribe key callback))].
Hypothesis Φ_nested : ∀ s s' t q,
  match q with
  | Method (Call _ _) | Method (Publish _ _) | ApplyDone _ _ => True
  | _ => False
  end →
  Φ s s' t → Φ s s' (Requests q :: t).

#[local] Abbreviation sound := (sound Φ).
#[local] Abbreviation sound_request := (sound_request Φ).

Lemma sound_bind_at {A B} (m : Run A) (k : A → Run B) (s : machine) :
  Φ s (state_of (m s)) (trace_of (m s)) → (∀ a, sound (k a)) →
  Φ s (state_of ((m ≫= k) s)) (trace_of ((m ≫= k) s)).
Proof using Φ_trans.
  intros Hm Hk. unfold mbind, Run_bind.
  destruct (m s) as [[[[a|e]|] s'] t]; [|done|done].
  specialize (Hk a s'). destruct (k a s') as [[c s''] t']. by eapply Φ_trans.
Qed.

Lemma sound_bind {A B} (m : Run A) (k : A → Run B) :
  sound m → (∀ a, sound (k a)) → sound (m ≫= k).
Proof using Φ_trans. intros Hm Hk s. by apply sound_bind_at. Qed.

Lemma sound_ret {A} (a : A) : sound (mret a : Run A).
Proof using Φ_refl. intros s. apply Φ_refl. Qed.

Lemma registerAsync_trace key func_ (r : registry) : trace_of (registerAsync key func_ r) = [].
Proof.
  destruct key as [| | | |k| |]; try done. destruct func_ as [| | | | | |f]; try done.
  unfold registerAsync. run_method.
  destruct (get r k) as [a| |]; [|done|done]. by destruct (func a).
Qed.

Lemma on_trace key callback (r : registry) : trace_of (on key callback r) = [].
Proof.
  destruct key as [| | | |k| |]; try done. destruct callback as [| | | | | |cb]; try done.
  unfold on. run_method.
  destruct (get r k) as [a| |]; [|done|done]. by case_bool_decide.
Qed.

Lemma unsubscribe_trace key callback (r : registry) :
  trace_of (unsubscribe key callback r) = [].
Proof.
  unfold unsubscribe. run_method.
  destruct (get r key) as [a| |]; [|done|done].
  by destruct (find_callback callback (subscribers a) 0).
Qed.

Lemma sound_run_prog (perform : request → Run jsval) (p : prog) :
  sound_request perform → sound (run_prog perform p).
Proof using Φ_refl Φ_trans.
  intros Hperform. induction p as [|e|q k IH]; intros s; [apply Φ_refl..|].
  rewrite run_prog_request. specialize (Hperform q s).
  destruct (perform q s) as [[[c|] s'] t]; [|exact Hperform].
  cbn. change (Requests q :: t ++ ?t') with ((Requests q :: t) ++ t').
  eapply Φ_trans; [exact Hperform|apply IH].
Qed.

Lemma sound_publish_loop (perform : request → Run jsval) n key data first i :
  sound_request perform → sound (publish_loop code perform n key data first i).
Proof using Φ_refl Φ_trans Φ_subscriber.
  intros Hperform. revert i. induction n as [|n IH]; intros i s.
  - cbn. destruct (walked_array key first s !! i); apply Φ_refl.
  - cbn [publish_loop]. destruct (walked_array key first s !! i) as [each|] eqn:Hi;
      [|apply Φ_refl].
    apply sound_bind_at; [|intros _; apply IH].
    unfold apply_subscriber. apply sound_bind_at; [by eapply Φ_subscriber|].
    intros _. by apply sound_run_prog.
Qed.

Lemma sound_publish_with (perform : request → Run jsval) n key data :
  sound_request perform → sound (publish_with code perform n key data).
Proof using Φ_refl Φ_trans Φ_subscriber.
  intros Hperform s. unfold publish_with.
  destruct (get (registry_of s) key) as [a| |]; [|apply Φ_refl..].
  by apply sound_publish_loop.
Qed.

Lemma sound_call_with (perform : request → Run jsval) n key data :
  sound_request perform → sound (call_with code perform n key data).
Proof using Φ_refl Φ_trans Φ_subscriber Φ_handler.
  intros Hperform s. unfold call_with.
  destruct (get (registry_of s) key) as [a| |] eqn:Hget;
    [|by apply sound_publish_with|apply Φ_refl].
  destruct (func a) as [f|] eqn:Hf; [|by apply sound_publish_with].
  unfold apply_handler. apply sound_bind_at.
  - eapply Φ_handler; [by apply get_lookup|done].
  - intros _. by apply sound_run_prog.
Qed.

Lemma state_of_bind_ret {A} (m : Run A) (v : jsval) (s : machine) :
  state_of ((m ≫= λ _, mret v) s) = state_of (m s) ∧
  trace_of ((m ≫= λ _, mret v) s) = trace_of (m s).
Proof.
  unfold mbind, Run_bind. destruct (m s) as [[[[a|e]|] s'] t]; cbn; [|done|done].
  by rewrite app_nil_r.
Qed.

Lemma sound_perform (fuel : nat) : sound_request (perform code fuel).
Proof using All.
  induction fuel as [|fuel IH]; intros q s.
  - destruct q as [[key f|key data|key data|key callback|key callback]|key data];
      try (by apply Φ_nested; [done|apply Φ_refl]).
    + rewrite perform_registerAsync.
      destruct (state_of_bind_ret (registerAsync_run key f) VUndefined s) as [-> ->].
      replace (trace_of (registerAsync_run key f s)) with (@nil event); [apply Φ_registerAsync|].
      unfold registerAsync_run. pose proof (registerAsync_trace key f (registry_of s)) as Ht.
      by destruct (registerAsync key f (registry_of s)) as [[[u|e] r'] t].
    + rewrite perform_on.
      replace (trace_of (lift (on key callback) s)) with (@nil event); [apply Φ_on|].
      unfold lift. pose proof (on_trace key callback (registry_of s)) as Ht.
      by destruct (on key callback (registry_of s)) as [[c r'] t].
    + rewrite perform_unsubscribe.
      destruct (state_of_bind_ret (lift (unsubscribe key callback)) VUndefined s) as [-> ->].
      replace (trace_of (lift (unsubscribe key callback) s)) with (@nil event);
        [apply Φ_unsubscribe|].
      unfold lift. pose proof (unsubscribe_trace key callback (registry_of s)) as Ht.
      by destruct (unsubscribe key callback (registry_of s)) as [[c r'] t].
  - destruct q as [[key f|key data|key data|key callback|key callback]|key data].
    + rewrite perform_registerAsync.
      destruct (state_of_bind_ret (registerAsync_run key f) VUndefined s) as [-> ->].
      replace (trace_of (registerAsync_run key f s)) with (@nil event); [apply Φ_registerAsync|].
      unfold registerAsync_run. pose proof (registerAsync_trace key f (registry_of s)) as Ht.
      by destruct (registerAsync key f (registry_of s)) as [[[u|e] r'] t].
    + rewrite perform_call.
      destruct (state_of_bind_ret (call_with code (perform code fuel) fuel key data)
                  VUndefined s) as [-> ->].
      apply Φ_nested; [done|]. by apply sound_call_with.
    + rewrite perform_publish.
      destruct (state_of_bind_ret (publish_with code (perform code fuel) fuel key data)
                  VUndefined s) as [-> ->].
      apply Φ_nested; [done|]. by apply sound_publish_with.
    + rewrite perform_on.
      replace (trace_of (lift (on key callback) s)) with (@nil event); [apply Φ_on|].
      unfold lift. pose proof (on_trace key callback (registry_of s)) as Ht.
      by destruct (on key callback (registry_of s)) as [[c r'] t].
    + rewrite perform_unsubscribe.
      destruct (state_of_bind_ret (lift (unsubscribe key callback)) VUndefined s) as [-> ->].
      replace (trace_of (lift (unsubscribe key callback) s)) with (@nil event);
        [apply Φ_unsubscribe|].
      unfold lift. pose proof (unsubscribe_trace key callback (registry_of s)) as Ht.
      by destruct (unsubscribe key callback (registry_of s)) as [[c r'] t].
    + rewrite perform_done. unfold buildDoneFunction_with.
      destruct (state_of_bind_ret (publish_with code (perform code fuel) fuel key data)
                  VUndefined s) as [-> ->].
      apply Φ_nested; [done|]. by apply sound_publish_with.
Qed.

(** Every run of [publish] and of [call] has the property. *)
Lemma run_induction_publish (fuel n : nat) key data :
  sound (publish_with code (perform code fuel) n key data).
Proof using All. apply sound_publish_with, sound_perform. Qed.

Lemma run_induction_call (fuel n : nat) key data :
  sound (call_with code (perform code fuel) n key data).
Proof using All. apply sound_call_with, sound_perform. Qed.

End RunInduction.

(** ** What the runs of user functions do to the registry *)

Section Link.

Variable code : user_functions.

Lemma requested_ops_app t1 t2 :
  requested_ops (t1 ++ t2) = requested_ops t1 ++ requested_ops t2.
Proof.
  induction t1 as [|[f k d|k each d|[o|k d]] t1 IH]; cbn; by rewrite ?IH.
Qed.

Lemma registerAsync_run_registry key func_ (s : machine) :
  registry_of (state_of (registerAsync_run key func_ s))
  = state_of (registerAsync key func_ (registry_of s)).
Proof.
  unfold registerAsync_run.
  by destruct (registerAsync key func_ (registry_of s)) as [[[u|e] r'] t].
Qed.

Lemma lift_registry {A} (m : M A) (s : machine) :
  registry_of (state_of (lift m s)) = state_of (m (registry_of s)).
Proof. unfold lift. by destruct (m (registry_of s)) as [[c r'] t]. Qed.

Lemma lift_old_arrays {A} (m : M A) (s : machine) :
  old_arrays (state_of (lift m s)) = old_arrays s.
Proof. unfold lift. by destruct (m (registry_of s)) as [[c r'] t]. Qed.

Lemma follows_requests_publish (fuel n : nat) key data (s : machine) :
  follows_requests s
    (state_of (publish_with code (perform code fuel) n key data s))
    (trace_of (publish_with code (perform code fuel) n key data s)).
Proof.
  apply (run_induction_publish code follows_requests); clear; unfold follows_requests.
  - done.
  - intros s1 s2 s3 t1 t2 H1 H2. by rewrite requested_ops_app, exec_all_app, <- H1.
  - done.
  - done.
  - intros s key func_. apply registerAsync_run_registry.
  - intros s key callback. apply lift_registry.
  - intros s key callback. apply lift_registry.
  - intros s s' t [[| | | |]|] Hq Ht; done.
Qed.

Lemma follows_requests_call (fuel n : nat) key data (s : machine) :
  follows_requests s
    (state_of (call_with code (perform code fuel) n key data s))
    (trace_of (call_with code (perform code fuel) n key data s)).
Proof.
  apply (run_induction_call code follows_requests); clear; unfold follows_requests.
  - done.
  - intros s1 s2 s3 t1 t2 H1 H2. by rewrite requested_ops_app, exec_all_app, <- H1.
  - done.
  - done.
  - intros s key func_. apply registerAsync_run_registry.
  - intros s key callback. apply lift_registry.
  - intros s key callback. apply lift_registry.
  - intros s s' t [[| | | |]|] Hq Ht; done.
Qed.

Lemma top_state {A} (m : Run A) (r : registry) :
  state_of (top m r) = registry_of (state_of (m {| registry_of := r; old_arrays := ∅ |})) ∧
  trace_of (top m r) = trace_of (m {| registry_of := r; old_arrays := ∅ |}) ∧
  result_of (top m r) = result_of (m {| registry_of := r; old_arrays := ∅ |}).
Proof. unfold top. by destruct (m _) as [[c s] t]. Qed.

End Link.

(** ** A callback that is not subscribed is not applied *)

Section NotSubscribed.

Variable code : user_functions.
Variable name : string.
Variable cb : fn.

#[local] Abbreviation subscribes := (subscribes name cb).
#[local] Abbreviation not_subscribed := (not_subscribed name cb).
#[local] Abbreviation applied_after_subscribed := (applied_after_subscribed name cb).
#[local] Abbreviation stays_unsubscribed := (stays_unsubscribed name cb).
#[local] Abbreviation is_subscribes := (is_subscribes name cb).

Lemma is_subscribes_spec e : is_subscribes e = true ↔ e = subscribes.
Proof.
  unfold subscribes. split; [|by intros ->; cbn; rewrite bool_decide_eq_true_2].
  destruct e as [| |[[|?|?|key callback|]|]]; try done.
  destruct key; try done. destruct callback; try done. cbn.
  intros [-> ->]%bool_decide_eq_true. done.
Qed.

Lemma subscribes_dec (t : list event) : subscribes ∈ t ∨ subscribes ∉ t.
Proof.
  induction t as [|e t [IH|IH]]; [right; apply not_elem_of_nil|left; by right|].
  destruct (is_subscribes e) eqn:He.
  - apply is_subscribes_spec in He as ->. left. left.
  - right. apply not_elem_of_cons. split; [|done].
    intros Heq. symmetry in Heq. apply is_subscribes_spec in Heq. congruence.
Qed.

Lemma applied_after_subscribed_nil : applied_after_subscribed [].
Proof. intros t1 d t2 Heq. by destruct t1. Qed.

Lemma applied_after_subscribed_single (e : event) :
  (∀ data, e ≠ InvokeSubscriber name cb data) → applied_after_subscribed [e].
Proof.
  intros He t1 d t2 Heq. destruct t1 as [|e1 t1].
  - injection Heq as -> _. by destruct (He d).
  - injection Heq as _ Heq. by destruct t1.
Qed.

Lemma applied_after_subscribed_app t1 t2 :
  applied_after_subscribed t1 →
  (subscribes ∉ t1 → applied_after_subscribed t2) →
  applied_after_subscribed (t1 ++ t2).
Proof.
  intros H1 H2 u1 d u2 Heq.
  apply app_eq_inv in Heq as [(k & Ht1 & Hk)|(k & Hu1 & Ht2)].
  - destruct k as [|e k].
    + rewrite app_nil_r in Ht1. subst u1. cbn in Hk.
      destruct (subscribes_dec t1) as [|Hn]; [done|].
      assert (subscribes ∈ []) as Hin by (by eapply (H2 Hn [] d u2)).
      by apply elem_of_nil in Hin.
    + injection Hk as <- _. by eapply (H1 u1 d k).
  - subst u1. apply elem_of_app.
    destruct (subscribes_dec t1) as [Hin|Hn]; [by left|].
    right. by eapply (H2 Hn k d u2).
Qed.

Lemma stays_unsubscribed_refl s : stays_unsubscribed s s [].
Proof. intros Hs. split; [apply applied_after_subscribed_nil|done]. Qed.

Lemma stays_unsubscribed_trans s1 s2 s3 t1 t2 :
  stays_unsubscribed s1 s2 t1 → stays_unsubscribed s2 s3 t2 →
  stays_unsubscribed s1 s3 (t1 ++ t2).
Proof.
  intros H1 H2 Hs. destruct (H1 Hs) as [Hg1 Hkeep1]. split.
  - apply applied_after_subscribed_app; [done|]. intros Hn. by apply H2, Hkeep1.
  - intros Hn. rewrite elem_of_app in Hn.
    assert (subscribes ∉ t1) as Hn1 by (intros ?; apply Hn; by left).
    assert (subscribes ∉ t2) as Hn2 by (intros ?; apply Hn; by right).
    by apply (H2 (Hkeep1 Hn1)).
Qed.

(** A step that applies nothing and leaves [cb] out of the arrays. *)
Lemma stays_unsubscribed_step s s' (e : event) :
  (∀ data, e ≠ InvokeSubscriber name cb data) →
  (not_subscribed s → e ≠ subscribes → not_subscribed s') →
  stays_unsubscribed s s' [e].
Proof.
  intros He Hkeep Hs. split; [by apply applied_after_subscribed_single|].
  intros Hn. apply Hkeep; [done|]. intros ->. apply Hn. left.
Qed.

Lemma walked_array_not_subscribed first s :
  not_subscribed s → cb ∉ walked_array name first s.
Proof.
  intros [Hlive Hold]. unfold walked_array.
  destruct (if first then old_arrays s !! name else None) as [l|] eqn:Hl.
  - destruct first; [by apply Hold|done].
  - destruct (registry_of s !! name) as [a|]; [by apply Hlive|apply not_elem_of_nil].
Qed.

(** [cb] stays out of the arrays of [name] through the three methods that
    write the registry, the subscription of [cb] to [name] apart. *)
Lemma not_subscribed_registerAsync key func_ s :
  not_subscribed s → not_subscribed (state_of (registerAsync_run key func_ s)).
Proof.
  intros [Hlive Hold]. unfold registerAsync_run.
  destruct key as [| | | |k| |]; try done.
  destruct func_ as [| | | | | |f]; try done.
  destruct (registry_of s !! k) as [a|] eqn:Hk;
    [|by destruct (registerAsync_not_own k f _ Hk) as [msg ->]].
  destruct (func a) as [g|] eqn:Hf; [by erewrite registerAsync_registered|].
  erewrite registerAsync_fresh by done. split; cbn.
  - intros a'. destruct (decide (k = name)) as [->|Hne].
    + rewrite lookup_insert_eq. intros [= <-]. apply not_elem_of_nil.
    + rewrite lookup_insert_ne by done. apply Hlive.
  - intros l. destruct (decide (k = name)) as [->|Hne].
    + rewrite lookup_insert_eq. intros [= <-]. by apply Hlive.
    + rewrite lookup_insert_ne by done. apply Hold.
Qed.

Lemma not_subscribed_on key callback s :
  not_subscribed s →
  Requests (Method (On key callback)) ≠ subscribes →
  not_subscribed (state_of (lift (on key callback) s)).
Proof.
  intros [Hlive Hold] Hne. split; [|by rewrite lift_old_arrays].
  rewrite lift_registry.
  destruct key as [| | | |k| |]; try done.
  destruct callback as [| | | | | |cb0]; try done.
  destruct (registry_of s !! k) as [a|] eqn:Hk;
    [|by destruct (on_not_own k cb0 _ Hk) as [msg ->]].
  destruct (decide (cb0 ∈ subscribers a)) as [Hin|Hn]; [by erewrite on_present|].
  erewrite on_new by done. cbn. intros a'.
  destruct (decide (k = name)) as [->|Hk'].
  - rewrite lookup_insert_eq. intros [= <-]. cbn.
    rewrite elem_of_app, list_elem_of_singleton. intros [Hin|Heq].
    + by eapply Hlive.
    + apply Hne. unfold subscribes. congruence.
  - rewrite lookup_insert_ne by done. apply Hlive.
Qed.

Lemma not_subscribed_unsubscribe key callback s :
  not_subscribed s → not_subscribed (state_of (lift (unsubscribe key callback) s)).
Proof.
  intros [Hlive Hold]. split; [|by rewrite lift_old_arrays].
  rewrite lift_registry.
  destruct (registry_of s !! key) as [a|] eqn:Hk;
    [|by destruct (unsubscribe_not_own key callback _ Hk) as [c ->]].
  destruct (find_callback callback (subscribers a) 0) as [i|] eqn:Hfind;
    [|by erewrite unsubscribe_not_found].
  erewrite unsubscribe_found by done. cbn. intros a'.
  destruct (decide (key = name)) as [->|Hk'].
  - rewrite lookup_insert_eq. intros [= <-]. cbn. rewrite splice1_delete.
    intros Hin. eapply Hlive; [done|].
    eapply elem_of_sublist; [done|apply sublist_delete].
  - rewrite lookup_insert_ne by done. apply Hlive.
Qed.

(** From a state where [cb] is not subscribed to [name], however the user
    functions behave, a publish applies [cb] for [name] only after a user
    function has subscribed [cb] to [name]. *)
Lemma stays_unsubscribed_publish (fuel n : nat) key data (s : machine) :
  stays_unsubscribed s
    (state_of (publish_with code (perform code fuel) n key data s))
    (trace_of (publish_with code (perform code fuel) n key data s)).
Proof.
  apply (run_induction_publish code stays_unsubscribed).
  - apply stays_unsubscribed_refl.
  - apply stays_unsubscribed_trans.
  - intros s0 k first i each d Hi Hs. split; [|done].
    apply applied_after_subscribed_single. intros d' [= -> -> _].
    apply (walked_array_not_subscribed first s0 Hs).
    by eapply list_elem_of_lookup_2.
  - intros s0 k a f d _ _. by apply stays_unsubscribed_step.
  - intros s0 k f. apply stays_unsubscribed_step; [done|].
    intros Hs _. by apply not_subscribed_registerAsync.
  - intros s0 k c. apply stays_unsubscribed_step; [done|].
    intros Hs Hne. by apply not_subscribed_on.
  - intros s0 k c. apply stays_unsubscribed_step; [done|].
    intros Hs _. by apply not_subscribed_unsubscribe.
  - intros s0 s1 t q Hq Ht.
    change (Requests q :: t) with ([Requests q] ++ t).
    eapply stays_unsubscribed_trans; [|done].
    by apply stays_unsubscribed_step.
Qed.

End NotSubscribed.

(** ** Subscribers are applied on request only *)

(** In the run of a user function, a subscriber of [name] is applied only
    after a user function has asked for a publish to [name]. *)
Section Gated.

Variable code : user_functions.
Variable name : string.

#[local] Abbreviation gated := (applied_after_published name).
#[local] Abbreviation gated_requests := (gated_requests name).

Lemma gated_nil : gated [].
Proof. intros t1 each d t2 Heq. by destruct t1. Qed.

Lemma gated_single (e : event) :
  (∀ each data, e ≠ InvokeSubscriber name each data) → gated [e].
Proof.
  intros He t1 each d t2 Heq. destruct t1 as [|e1 t1].
  - injection Heq as -> _. by destruct (He each d).
  - injection Heq as _ Heq. by destruct t1.
Qed.

Lemma gated_app t1 t2 : gated t1 → gated t2 → gated (t1 ++ t2).
Proof.
  intros H1 H2 u1 each d u2 Heq.
  apply app_eq_inv in Heq as [(k & Ht1 & Hk)|(k & Hu1 & Ht2)].
  - destruct k as [|e k].
    + rewrite app_nil_r in Ht1. subst u1. cbn in Hk.
      destruct (H2 [] each d u2 (eq_sym Hk)) as (q & _ & Hin). by apply elem_of_nil in Hin.
    + injection Hk as <- _. by eapply (H1 u1 each d k).
  - subst u1. destruct (H2 k each d u2 Ht2) as (q & Hq & Hin).
    exists q. split; [done|]. apply elem_of_app. by right.
Qed.

(** Whatever follows a request that publishes to [name]. *)
Lemma gated_published q t : publishes name q = true → gated (Requests q :: t).
Proof.
  intros Hq t1 each d t2 Heq. destruct t1 as [|e1 t1]; [done|].
  injection Heq as <- _. exists q. split; [done|left].
Qed.

Lemma gated_bind {A B} (m : Run A) (k : A → Run B) (s : machine) :
  gated (trace_of (m s)) → (∀ a s', gated (trace_of (k a s'))) →
  gated (trace_of ((m ≫= k) s)).
Proof.
  intros Hm Hk. unfold mbind, Run_bind.
  destruct (m s) as [[[[a|e]|] s'] t]; [|done|done].
  specialize (Hk a s'). destruct (k a s') as [[c s''] t']. by apply gated_app.
Qed.

Lemma gated_run_prog (perform : request → Run jsval) (p : prog) (s : machine) :
  gated_requests perform → gated (trace_of (run_prog perform p s)).
Proof.
  intros Hperform. revert s. induction p as [|e|q k IH]; intros s;
    [apply gated_nil..|].
  cbn [run_prog]. specialize (Hperform q s).
  destruct (publishes name q) eqn:Hq.
  - destruct (perform q s) as [[[c|] s'] t]; [|by apply gated_published].
    destruct (run_prog perform (k c) s') as [[c' s''] t']. by apply gated_published.
  - specialize (Hperform eq_refl).
    destruct (perform q s) as [[[c|] s'] t].
    + specialize (IH c s'). destruct (run_prog perform (k c) s') as [[c' s''] t'].
      apply (gated_app [Requests q]); [by apply gated_single|by apply gated_app].
    + apply (gated_app [Requests q]); [by apply gated_single|done].
Qed.

Lemma gated_publish_loop (perform : request → Run jsval) n key data first i s :
  key ≠ name → gated_requests perform →
  gated (trace_of (publish_loop code perform n key data first i s)).
Proof.
  intros Hne Hperform. revert i s. induction n as [|n IH]; intros i s; cbn [publish_loop].
  - destruct (walked_array key first s !! i); apply gated_nil.
  - destruct (walked_array key first s !! i) as [each|]; [|apply gated_nil].
    apply gated_bind; [|by intros _ s'].
    unfold apply_subscriber. apply gated_bind.
    + apply gated_single. intros x d [= ? _]. done.
    + intros _ s'. by apply gated_run_prog.
Qed.

Lemma gated_publish_with (perform : request → Run jsval) n key data s :
  key ≠ name → gated_requests perform →
  gated (trace_of (publish_with code perform n key data s)).
Proof.
  intros Hne Hperform. unfold publish_with.
  destruct (get (registry_of s) key) as [action| |]; [|apply gated_nil..].
  by apply gated_publish_loop.
Qed.

Lemma gated_apply_handler (perform : request → Run jsval) f key data s :
  gated_requests perform →
  gated (trace_of (apply_handler code perform f key data s)).
Proof.
  intros Hperform. unfold apply_handler. apply gated_bind.
  - by apply gated_single.
  - intros _ s'. by apply gated_run_prog.
Qed.

Lemma gated_call_with (perform : request → Run jsval) n key data s :
  key ≠ name → gated_requests perform →
  gated (trace_of (call_with code perform n key data s)).
Proof.
  intros Hne Hperform. unfold call_with.
  destruct (get (registry_of s) key) as [action| |]; [| |apply gated_nil].
  - destruct (func action) as [f|]; [by apply gated_apply_handler|].
    by apply gated_publish_with.
  - by apply gated_publish_with.
Qed.

Lemma gated_perform (fuel : nat) : gated_requests (perform code fuel).
Proof.
  induction fuel as [|fuel IH]; intros q s Hq.
  - destruct q as [[key f|key data|key data|key callback|key callback]|key data];
      try apply gated_nil.
    + rewrite perform_registerAsync.
      rewrite (proj2 (state_of_bind_ret (registerAsync_run key f) VUndefined s)).
      unfold registerAsync_run. pose proof (registerAsync_trace key f (registry_of s)) as Ht.
      destruct (registerAsync key f (registry_of s)) as [[[u|e] r'] t];
        cbn in *; subst; apply gated_nil.
    + rewrite perform_on. unfold lift.
      pose proof (on_trace key callback (registry_of s)) as Ht.
      destruct (on key callback (registry_of s)) as [[c r'] t]. cbn in *. subst.
      apply gated_nil.
    + rewrite perform_unsubscribe.
      rewrite (proj2 (state_of_bind_ret (lift (unsubscribe key callback)) VUndefined s)).
      unfold lift. pose proof (unsubscribe_trace key callback (registry_of s)) as Ht.
      destruct (unsubscribe key callback (registry_of s)) as [[c r'] t]. cbn in *. subst.
      apply gated_nil.
  - destruct q as [[key f|key data|key data|key callback|key callback]|key data].
    + rewrite perform_registerAsync.
      rewrite (proj2 (state_of_bind_ret (registerAsync_run key f) VUndefined s)).
      unfold registerAsync_run. pose proof (registerAsync_trace key f (registry_of s)) as Ht.
      destruct (registerAsync key f (registry_of s)) as [[[u|e] r'] t];
        cbn in *; subst; apply gated_nil.
    + rewrite perform_call.
      rewrite (proj2 (state_of_bind_ret (call_with code (perform code fuel) fuel key data)
                        VUndefined s)).
      apply gated_call_with; [|done]. cbn in Hq. by apply bool_decide_eq_false in Hq.
    + rewrite perform_publish.
      rewrite (proj2 (state_of_bind_ret (publish_with code (perform code fuel) fuel key data)
                        VUndefined s)).
      apply gated_publish_with; [|done]. cbn in Hq. by apply bool_decide_eq_false in Hq.
    + rewrite perform_on. unfold lift.
      pose proof (on_trace key callback (registry_of s)) as Ht.
      destruct (on key callback (registry_of s)) as [[c r'] t]. cbn in *. subst.
      apply gated_nil.
    + rewrite perform_unsubscribe.
      rewrite (proj2 (state_of_bind_ret (lift (unsubscribe key callback)) VUndefined s)).
      unfold lift. pose proof (unsubscribe_trace key callback (registry_of s)) as Ht.
      destruct (unsubscribe key callback (registry_of s)) as [[c r'] t]. cbn in *. subst.
      apply gated_nil.
    + rewrite perform_done. unfold buildDoneFunction_with.
      rewrite (proj2 (state_of_bind_ret (publish_with code (perform code fuel) fuel key data)
                        VUndefined s)).
      apply gated_publish_with; [|done]. cbn in Hq. by apply bool_decide_eq_false in Hq.
Qed.

End Gated.

(** ** Counting in traces *)


Lemma calls_of_app key cb t1 t2 :
  calls_of key cb (t1 ++ t2) = calls_of key cb t1 ++ calls_of key cb t2.
Proof.
  induction t1 as [|[f k d|k each d|q] t1 IH]; cbn; [done|done| |done].
  case_bool_decide; cbn; by rewrite IH.
Qed.

Lemma calls_of_fmap_notin key cb (l : list fn) data :
  cb ∉ l → calls_of key cb ((λ each, InvokeSubscriber key each data) <$> l) = [].
Proof.
  induction l as [|x l IH]; [done|]. intros Hn.
  apply not_elem_of_cons in Hn as [Hne Hn]. cbn.
  rewrite bool_decide_eq_false_2 by (intros [_ ?]; congruence). auto.
Qed.

Lemma calls_of_fmap_NoDup key cb (l : list fn) data :
  NoDup l → cb ∈ l →
  calls_of key cb ((λ each, InvokeSubscriber key each data) <$> l) = [data].
Proof.
  induction l as [|x l IH]; intros Hnd Hin.
  - by apply elem_of_nil in Hin.
  - apply NoDup_cons in Hnd as [Hx Hnd]. cbn.
    case_bool_decide as Heq.
    + destruct Heq as [_ ->]. by rewrite calls_of_fmap_notin.
    + apply elem_of_cons in Hin as [->|Hin]; [by destruct Heq|]. auto.
Qed.

Lemma calls_of_done_events_subscribed key cb (subs : list fn) (results : list jsval) :
  NoDup subs → cb ∈ subs → calls_of key cb (done_events key subs results) = results.
Proof.
  intros Hnd Hin. induction results as [|result results IH]; [done|].
  unfold done_events in *. cbn.
  rewrite calls_of_app, calls_of_fmap_NoDup by done. cbn. by f_equal.
Qed.

Lemma calls_of_done_events_not_subscribed key cb (subs : list fn) (results : list jsval) :
  cb ∉ subs → calls_of key cb (done_events key subs results) = [].
Proof.
  intros Hn. induction results as [|result results IH]; [done|].
  unfold done_events in *. cbn. by rewrite calls_of_app, calls_of_fmap_notin.
Qed.

Lemma calls_of_nil key cb (t : list event) :
  (∀ data, InvokeSubscriber key cb data ∉ t) → calls_of key cb t = [].
Proof.
  induction t as [|e t IH]; [done|]. intros Hn.
  assert (calls_of key cb t = []) as Ht
    by (apply IH; intros d Hd; apply (Hn d); by right).
  destruct e as [f k d|k each d|q]; cbn; [done| |done].
  case_bool_decide as Heq; [|done].
  destruct Heq as [-> ->]. destruct (Hn d). left.
Qed.

(** A callback that is applied only after it is subscribed again, in a trace
    where it is not subscribed again, is not applied. *)
Lemma applied_after_subscribed_never name cb (t : list event) :
  applied_after_subscribed name cb t → subscribes name cb ∉ t →
  calls_of name cb t = [].
Proof.
  intros Hg Hn. apply calls_of_nil. intros d Hin.
  apply list_elem_of_split in Hin as (t1 & t2 & ->).
  apply Hn, elem_of_app. left. by eapply Hg.
Qed.

(** ** Properties of the methods *)

(** *** registerAsync *)

(** What a successful [registerAsync] does, whatever its arguments. *)
Lemma registerAsync_returns key func_ (r : registry) :
  returns (registerAsync key func_ r) →
  ∃ k f action,
    key = VString k ∧ func_ = VFunction f ∧ r !! k = Some action ∧ func action = None ∧
    state_of (registerAsync key func_ r) = <[k := {| subscribers := []; func := Some f |}]> r.
Proof.
  intros [u Hu].
  destruct key as [| | | |k| |]; try discriminate Hu.
  destruct func_ as [| | | | | |f]; try discriminate Hu.
  destruct (r !! k) as [a|] eqn:Hk.
  - destruct (func a) as [g|] eqn:Hf.
    + erewrite registerAsync_registered in Hu by done. discriminate Hu.
    + exists k, f, a. by erewrite registerAsync_fresh.
  - destruct (registerAsync_not_own k f r Hk) as [msg Hmsg].
    rewrite Hmsg in Hu. discriminate Hu.
Qed.

(** C1 (the code departs from the claim): an action is declared, a callback
    is subscribed to it with [on], and a function is then registered with
    [registerAsync].  The call succeeds and the function is in the record,
    but the subscriber array of the record is a new empty one: the callback
    subscribed before is gone, and a publish applies no subscriber, whatever
    the user functions are. *)
Theorem C1_registerAsync_empties_subscribers :
  let r0 := constructor {[ "load" := VNull ]} in
  let r1 := state_of (on (VString "load") (VFunction 1) r0) in
  let run := registerAsync (VString "load") (VFunction 7) r1 in
  subscribers <$> r1 !! "load" = Some [1] ∧
  result_of run = Normal () ∧
  func <$> state_of run !! "load" = Some (Some 7) ∧
  subscribers <$> state_of run !! "load" = Some [] ∧
  ∀ code fuel,
    publish code fuel "load" (VNumber 5) (state_of run) = (Some (Normal ()), state_of run, []).
Proof.
  cbn zeta. split_and!; [by vm_compute..|].
  intros code fuel.
  apply (publish_inert code fuel "load" (VNumber 5) _ {| subscribers := []; func := Some 7 |});
    [by vm_compute| |cbn; lia].
  intros each Hin. by apply elem_of_nil in Hin.
Qed.

(** *** Undeclared names *)

(** C2 (the code departs from the claim): the registry is built from
    [{ x: null }], and ["toString"] is not one of its names.  Every plain
    object inherits a [toString], which passes the test [if (action)]:
    [call] goes on to [publish], which throws the engine's [TypeError] for
    iterating the [subscribers] the inherited value has not, and
    [unsubscribe] throws the one for reading its [length].  A name that is
    neither declared nor inherited, like ["y"], is the no-op the claim
    describes. *)
Theorem C2_inherited_name_throws :
  let r : registry := constructor {[ "x" := VNull ]} in
  r !! "toString" = None ∧
  (∀ code fuel, call code fuel "toString" (VNumber 1) r
                = (Some (Throw subscribers_not_iterable), r, [])) ∧
  (∀ callback, unsubscribe "toString" callback r = (Throw undefined_length_read, r, [])) ∧
  (∀ code fuel, call code fuel "y" (VNumber 1) r = (Some (Normal ()), r, [])) ∧
  (∀ callback, unsubscribe "y" callback r = (Normal (), r, [])).
Proof.
  cbn zeta.
  assert ("toString" ∈ Object_prototype) as Hin by (by vm_compute; repeat constructor).
  assert ("y" ∉ Object_prototype) as Hn.
  { intros Hy. by repeat (apply elem_of_cons in Hy as [?|Hy]; [done|]);
      apply elem_of_nil in Hy. }
  split_and!.
  - by vm_compute.
  - intros code fuel. by apply call_inherited.
  - intros callback. by apply unsubscribe_inherited.
  - intros code fuel. by apply call_undefined.
  - intros callback. by apply unsubscribe_undeclared.
Qed.

(** C3 (the code departs from the claim): [on] with a string that is not a
    declared name and a function reads [subscribers] of [undefined]: the
    exception is the engine's [TypeError] of the unchecked lookup, not a state
    error.  [registerAsync] on the same registry and name does check, and
    throws the state error. *)
Theorem C3_on_undeclared_unchecked_lookup :
  let r := constructor {[ "x" := VNull ]} in
  on (VString "y") (VFunction 1) r = (Throw undefined_property_read, r, []) ∧
  is_state_error undefined_property_read = false ∧
  is_TypeError undefined_property_read = true ∧
  ∃ e, registerAsync (VString "y") (VFunction 1) r = (Throw e, r, []) ∧
       is_state_error e = true.
Proof.
  cbn zeta. split_and!; [by vm_compute|done|done|].
  eexists. split; [by vm_compute|done].
Qed.

(** *** call *)



(** *** One function per action *)

(** C6: on a declared action with no function yet, [registerAsync] with a
    string name and a function returns and puts the function in the record.
    From then on, after any method calls, a further [registerAsync] for that
    action with a string name and a function throws a state error, changes
    nothing, and the record still holds the first function: the slot is
    filled at most once. *)
Theorem C6_at_most_one_handler
    (r : registry) (name : string) (action : Action) (f : fn) :
  r !! name = Some action → func action = None →
  let run1 := registerAsync (VString name) (VFunction f) r in
  result_of run1 = Normal () ∧
  func <$> state_of run1 !! name = Some (Some f) ∧
  ∀ (ops : list op) (g : fn),
    let r' := exec_all ops (state_of run1) in
    func <$> r' !! name = Some (Some f) ∧
    ∃ e, registerAsync (VString name) (VFunction g) r' = (Throw e, r', []) ∧
         is_state_error e = true.
Proof.
  intros Hk Hf run1. subst run1. erewrite registerAsync_fresh by done.
  cbn [result_of state_of fst snd].
  split; [done|]. split; [by rewrite lookup_insert_eq|].
  intros ops g.
  destruct (exec_all_func_attached ops
              (<[name := {| subscribers := []; func := Some f |}]> r) name
              {| subscribers := []; func := Some f |} f) as (a' & Hk' & Hf');
    [by rewrite lookup_insert_eq|done|].
  split; [by rewrite Hk', <- Hf'|].
  eexists. split; [by eapply registerAsync_registered|done].
Qed.

(** *** Subscribing *)



(** *** Unsubscribing *)

(** C9 (as amended): in a registry built through the class, [unsubscribe] on
    a declared action with a callback returns without an exception and leaves
    the action's function as it was.  When the callback is subscribed, the
    first entry equal to it is taken out of the array; when it is not, the
    registry is as it was.  In both cases the other subscribers stay, in
    their order, and the callback is no longer subscribed.  In a publish
    that follows, whatever the user functions do, the callback is applied for
    that action only after a user function run by the publish has subscribed
    it to the action again; when none does - as when the subscribers return
    at once - it is not applied. *)
Theorem C9_unsubscribe_removes
    (r : registry) (name : string) (action : Action) (cb : fn) :
  reachable r →
  r !! name = Some action →
  let run := unsubscribe name (VFunction cb) r in
  result_of run = Normal () ∧
  (cb ∉ subscribers action → state_of run = r) ∧
  ∃ action',
    state_of run !! name = Some action' ∧
    func action' = func action ∧
    (cb ∈ subscribers action →
       ∃ l1 l2, subscribers action = l1 ++ cb :: l2 ∧ (cb ∉ l1) ∧
                subscribers action' = l1 ++ l2) ∧
    subscribers action' = filter (λ x, x ≠ cb) (subscribers action) ∧
    (cb ∉ subscribers action') ∧
    ∀ (code : user_functions) (fuel : nat) (data : jsval),
      applied_after_subscribed name cb
        (trace_of (publish code fuel name data (state_of run))) ∧
      (subscribes name cb ∉ trace_of (publish code fuel name data (state_of run)) →
       calls_of name cb (trace_of (publish code fuel name data (state_of run))) = []) ∧
      ((∀ each, each ∈ subscribers action' → subscriber_body code each data = Return) →
       length (subscribers action') ≤ fuel →
       calls_of name cb (trace_of (publish code fuel name data (state_of run))) = []).
Proof.
  intros Hreach Hk run. subst run.
  pose proof (reachable_no_duplicates _ Hreach _ _ Hk) as Hnd.
  assert (∀ (r' : registry) action',
            r' !! name = Some action' → cb ∉ subscribers action' →
            ∀ (code : user_functions) (fuel : nat) (data : jsval),
              applied_after_subscribed name cb (trace_of (publish code fuel name data r')) ∧
              (subscribes name cb ∉ trace_of (publish code fuel name data r') →
               calls_of name cb (trace_of (publish code fuel name data r')) = []) ∧
              ((∀ each, each ∈ subscribers action' → subscriber_body code each data = Return) →
               length (subscribers action') ≤ fuel →
               calls_of name cb (trace_of (publish code fuel name data r')) = []))
    as Hpublish.
  { intros r' a' Hk' Hn' code fuel data.
    assert (applied_after_subscribed name cb (trace_of (publish code fuel name data r')))
      as Hg.
    { unfold publish. destruct (top_state (publish_with code (perform code fuel) fuel name data) r')
        as (_ & -> & _).
      apply (stays_unsubscribed_publish code name cb). split; cbn.
      - intros a. rewrite Hk'. by intros [= <-].
      - intros l. by rewrite lookup_empty. }
    split_and!; [done|by apply applied_after_subscribed_never|].
    intros Hret Hfuel. erewrite publish_inert by done.
    by apply calls_of_fmap_notin. }
  destruct (find_callback (VFunction cb) (subscribers action) 0) as [i|] eqn:Hfind.
  - destruct (find_callback_Some _ _ _ _ Hfind) as (l1 & l2 & Hsubs & Hn1 & ->).
    assert (cb ∉ l2) as Hn2.
    { rewrite Hsubs in Hnd. apply NoDup_app in Hnd as (_ & _ & Hnd).
      by apply NoDup_cons in Hnd as [? _]. }
    assert (cb ∉ l1 ++ l2) as Hn12
      by (rewrite elem_of_app; intros [?|?]; done).
    erewrite unsubscribe_found by done.
    cbn [result_of state_of fst snd Nat.add]. rewrite Hsubs, splice1_middle.
    split; [done|]. split.
    { intros Hn. exfalso. apply Hn. rewrite elem_of_app. right. left. }
    eexists. split; [by rewrite lookup_insert_eq|]. cbn [subscribers func].
    split_and!; [done| |..|done|].
    + intros _. by exists l1, l2.
    + rewrite filter_app, filter_cons_False by (intros Hne; by apply Hne).
      rewrite <- filter_app. by rewrite filter_ne_notin.
    + apply (Hpublish _ {| subscribers := l1 ++ l2; func := func action |});
        [by rewrite lookup_insert_eq|done].
  - pose proof Hfind as Hn. apply find_callback_None in Hn.
    erewrite unsubscribe_not_found by done.
    cbn [result_of state_of fst snd].
    split; [done|]. split; [done|].
    exists action. split_and!; [done|done|done| |done|].
    + by rewrite filter_ne_notin.
    + by eapply Hpublish.
Qed.

(** *** Other actions *)

Lemma registerAsync_frame key func_ (r : registry) (b : string) :
  key ≠ VString b → state_of (registerAsync key func_ r) !! b = r !! b.
Proof.
  intros Hne.
  destruct key as [| | | |k| |]; try done.
  destruct func_ as [| | | | | |f]; try done.
  destruct (r !! k) as [a|] eqn:Hk;
    [|by destruct (registerAsync_not_own k f r Hk) as [msg ->]].
  destruct (func a) as [g|] eqn:Hf; [by erewrite registerAsync_registered|].
  erewrite registerAsync_fresh by done. cbn [state_of fst snd].
  apply lookup_insert_ne. congruence.
Qed.

Lemma on_frame key callback (r : registry) (b : string) :
  key ≠ VString b → state_of (on key callback r) !! b = r !! b.
Proof.
  intros Hne.
  destruct key as [| | | |k| |]; try done.
  destruct callback as [| | | | | |cb]; try done.
  destruct (r !! k) as [a|] eqn:Hk;
    [|by destruct (on_not_own k cb r Hk) as [msg ->]].
  destruct (decide (cb ∈ subscribers a)) as [Hin|Hn]; [by erewrite on_present|].
  erewrite on_new by done. cbn [state_of fst snd].
  apply lookup_insert_ne. congruence.
Qed.

Lemma unsubscribe_frame key callback (r : registry) (b : string) :
  key ≠ b → state_of (unsubscribe key callback r) !! b = r !! b.
Proof.
  intros Hne.
  destruct (r !! key) as [a|] eqn:Hk;
    [|by destruct (unsubscribe_not_own key callback r Hk) as [c ->]].
  destruct (find_callback callback (subscribers a) 0) as [i|] eqn:Hf;
    [|by erewrite unsubscribe_not_found].
  erewrite unsubscribe_found by done. cbn [state_of fst snd].
  by apply lookup_insert_ne.
Qed.

(** C10: for two distinct names [a] and [b], [registerAsync], [on] and
    [unsubscribe] called for [a], with any other arguments and whether they
    return or throw, leave the record of [b] (its subscriber array and its
    function) as it was. *)
Theorem C10_other_actions_untouched
    (r : registry) (a b : string) (func_ callback : jsval) :
  a ≠ b →
  state_of (registerAsync (VString a) func_ r) !! b = r !! b ∧
  state_of (on (VString a) callback r) !! b = r !! b ∧
  state_of (unsubscribe a callback r) !! b = r !! b.
Proof.
  intros Hne. split_and!.
  - apply registerAsync_frame. congruence.
  - apply on_frame. congruence.
  - by apply unsubscribe_frame.
Qed.

(** ** Further properties of the class *)

(** *** The constructor *)

(** X1: the constructor declares exactly the keys of the object it is given,
    each with no subscriber and no function; the values of the object play
    no part: two objects with the same keys give the same registry. *)
Theorem X1_constructor_keys_only (actions actions' : gmap string jsval) :
  dom (constructor actions) = dom actions ∧
  (∀ k action, constructor actions !! k = Some action →
     action = {| subscribers := []; func := None |}) ∧
  (dom actions = dom actions' → constructor actions = constructor actions').
Proof.
  split_and!.
  - unfold constructor. apply dom_fmap_L.
  - intros k a. rewrite lookup_constructor. destruct (actions !! k); [|done].
    by intros [= <-].
  - intros Hdom. apply map_eq. intros k. rewrite !lookup_constructor.
    assert (is_Some (actions !! k) ↔ is_Some (actions' !! k)) as Hiff
      by (rewrite <- !elem_of_dom; by rewrite Hdom).
    destruct (actions !! k) as [v|] eqn:Hk, (actions' !! k) as [v'|] eqn:Hk'; try done.
    + destruct (proj1 Hiff) as [? [=]]. eauto.
    + destruct (proj2 Hiff) as [? [=]]. eauto.
Qed.

(** X2: no sequence of method calls adds or removes an action: the declared
    names after the calls are those before, hence the keys given to the
    constructor. *)
Theorem X2_declared_names_fixed (actions : gmap string jsval) (ops : list op) (r : registry) :
  dom (exec_all ops r) = dom r ∧
  dom (exec_all ops (constructor actions)) = dom actions.
Proof.
  assert (∀ r' : registry, dom (exec_all ops r') = dom r') as Hdom.
  { intros r'. apply set_eq. intros k. rewrite !elem_of_dom. apply exec_all_declared. }
  split; [apply Hdom|]. rewrite Hdom. unfold constructor. apply dom_fmap_L.
Qed.

(** *** The checks of registerAsync *)

(** X3: [registerAsync] with a key that is not a string, or with a string
    key and a [func] that is not a function, throws a [TypeError], applies
    nothing and leaves the registry as it was; the key is checked first, so a
    bad key is reported even when [func] is bad too, and both checks come
    before the lookup of the name. *)
Theorem X3_registerAsync_type_errors (key func_ : jsval) (r : registry) :
  typeof key ≠ "string" ∨ typeof func_ ≠ "function" →
  registerAsync key func_ r
  = (Throw (TypeError (if bool_decide (typeof key = "string")
                       then "Actions.registerAsync: func argument must be a function"
                       else "Actions.registerAsync: key argument must be a string")),
     r, []).
Proof.
  intros Hbad. case_bool_decide as Hkey.
  - destruct Hbad as [?|Hfunc]; [done|]. by apply registerAsync_func_not_function.
  - by apply registerAsync_key_not_string.
Qed.

(** X4: [registerAsync] returns exactly when the key is a string, [func] is
    a function, the name is declared and no function is registered for it
    yet.  In every other case it throws and the registry is as it was; in no
    case does it apply a user function. *)
Theorem X4_registerAsync_all_or_nothing (key func_ : jsval) (r : registry) :
  (returns (registerAsync key func_ r) ↔
   ∃ k f action, key = VString k ∧ func_ = VFunction f ∧
                 r !! k = Some action ∧ func action = None) ∧
  (¬ returns (registerAsync key func_ r) →
   ∃ e, registerAsync key func_ r = (Throw e, r, [])) ∧
  trace_of (registerAsync key func_ r) = [].
Proof.
  assert (returns (registerAsync key func_ r) ∨
          ∃ e, registerAsync key func_ r = (Throw e, r, [])) as Hcases.
  { destruct key as [| | | |k| |]; try (right; by eexists).
    destruct func_ as [| | | | | |f]; try (right; by eexists).
    destruct (r !! k) as [a|] eqn:Hk;
      [|right; destruct (registerAsync_not_own k f r Hk) as [msg Hmsg]; by eexists].
    destruct (func a) as [g|] eqn:Hf;
      [right; eexists; by eapply registerAsync_registered|].
    left. exists (). by erewrite registerAsync_fresh. }
  split_and!.
  - split.
    + intros Hret. destruct (registerAsync_returns _ _ _ Hret)
        as (k & f & a & -> & -> & Hk & Hf & _). eauto 10.
    + intros (k & f & a & -> & -> & Hk & Hf). exists ().
      by erewrite registerAsync_fresh.
  - intros Hn. by destruct Hcases.
  - destruct Hcases as [Hret|[e ->]]; [|done].
    destruct (registerAsync_returns _ _ _ Hret) as (k & f & a & -> & -> & Hk & Hf & _).
    by erewrite registerAsync_fresh.
Qed.

(** X5: a name that is not a key of the constructor's object is refused by
    [registerAsync] at any later moment, with a state error, and the
    registry is as it was.  The error says that the action is not declared,
    unless the name is one that plain objects inherit: for ["toString"] and
    the like it says that the action is already registered. *)
Theorem X5_registerAsync_undeclared
    (actions : gmap string jsval) (ops : list op) (name : string) (f : fn) :
  actions !! name = None →
  let r := exec_all ops (constructor actions) in
  registerAsync (VString name) (VFunction f) r
  = (Throw (Error (if bool_decide (name ∈ Object_prototype)
                   then "Actions.registerAsync: action already registered"
                   else "Actions.registerAsync: action not declared, please add it to the constructor")),
     r, []).
Proof.
  intros Hname r.
  assert (r !! name = None) as Hr by by apply exec_all_undeclared.
  case_bool_decide.
  - by apply registerAsync_inherited.
  - by apply registerAsync_undeclared.
Qed.

(** *** The checks and the effect of on *)

(** X6: [on] with a key that is not a string, or with a string key and a
    callback that is not a function, throws a [TypeError] and leaves the
    registry as it was; the key is checked first, and both checks come before
    the name is looked up, so an undeclared name with a bad callback gives
    the callback's [TypeError]. *)
Theorem X6_on_type_errors (key callback : jsval) (r : registry) :
  typeof key ≠ "string" ∨ typeof callback ≠ "function" →
  on key callback r
  = (Throw (TypeError (if bool_decide (typeof key = "string")
                       then "Actions.on: callback argument must be a function"
                       else "Actions.on: key argument must be a string")),
     r, []).
Proof.
  intros Hbad. case_bool_decide as Hkey.
  - destruct Hbad as [?|Hcb]; [done|]. by apply on_callback_not_function.
  - by apply on_key_not_string.
Qed.

(** X7: [on] returns exactly when the key is a string, the callback is a
    function and the name is declared.  In every other case it throws and
    the registry is as it was; in no case does it apply a user function, the
    callback included. *)
Theorem X7_on_all_or_nothing (key callback : jsval) (r : registry) :
  (returns (on key callback r) ↔
   ∃ k cb, key = VString k ∧ callback = VFunction cb ∧ is_Some (r !! k)) ∧
  (¬ returns (on key callback r) → ∃ e, on key callback r = (Throw e, r, [])) ∧
  trace_of (on key callback r) = [].
Proof.
  destruct key as [| | | |k| |];
    try (split_and!; [split; [by intros [? [=]]|by intros (? & ? & [=] & _)]
                     |intros _; by eexists|done]).
  destruct callback as [| | | | | |cb];
    try (split_and!; [split; [by intros [? [=]]|by intros (? & ? & _ & [=] & _)]
                     |intros _; by eexists|done]).
  destruct (r !! k) as [a|] eqn:Hk.
  - destruct (decide (cb ∈ subscribers a)) as [Hin|Hn].
    + erewrite on_present by done. split_and!; [|intros []; by eexists|done].
      split; [eauto 10|intros _; by eexists].
    + erewrite on_new by done. split_and!; [|intros []; by eexists|done].
      split; [eauto 10|intros _; by eexists].
  - destruct (on_not_own k cb r Hk) as [msg ->].
    split_and!; [|intros _; by eexists|done].
    split; [by intros [? [=]]|]. intros (k' & cb' & [= <-] & _ & [? Hs]). congruence.
Qed.

(** X8: on a declared action, [on] with a function keeps the action's
    function and the subscribers it had, in their order; the callback is
    put at the end when it was not subscribed and the array is left alone
    when it was; the result tells which: the callback itself or [undefined].
    Afterwards the callback is subscribed. *)
Theorem X8_on_effect (r : registry) (name : string) (action : Action) (cb : fn) :
  r !! name = Some action →
  let added := bool_decide (cb ∉ subscribers action) in
  ∃ action',
    on (VString name) (VFunction cb) r
    = (Normal (if added then VFunction cb else VUndefined), <[name := action']> r, []) ∧
    func action' = func action ∧
    subscribers action' = subscribers action ++ (if added then [cb] else []) ∧
    cb ∈ subscribers action'.
Proof.
  intros Hk added. subst added. case_bool_decide as Hn.
  - eexists. split; [by apply on_new|]. cbn. split_and!; [done..|].
    apply elem_of_app. right. by apply list_elem_of_singleton.
  - exists action.
    rewrite insert_id by done. rewrite app_nil_r.
    split; [by eapply on_present|done].
Qed.

(** *** call and publish *)


(** X10: [call] and [publish] write nothing in the registry themselves:
    whatever the user functions they run do, and whether the run returns,
    throws or is cut short, the registry at the end is the registry at the
    start after the method calls the user functions made, in the order they
    made them; when they made none the registry is as it was, and a registry
    built through the class stays one. *)
Theorem X10_runs_write_through_methods
    (code : user_functions) (fuel : nat) (key : string) (data : jsval) (r : registry) :
  state_of (call code fuel key data r)
  = exec_all (requested_ops (trace_of (call code fuel key data r))) r ∧
  state_of (publish code fuel key data r)
  = exec_all (requested_ops (trace_of (publish code fuel key data r))) r ∧
  (reachable r →
   reachable (state_of (call code fuel key data r)) ∧
   reachable (state_of (publish code fuel key data r))).
Proof.
  assert (state_of (call code fuel key data r)
          = exec_all (requested_ops (trace_of (call code fuel key data r))) r) as Hcall.
  { unfold call.
    destruct (top_state (call_with code (perform code fuel) fuel key data) r)
      as (-> & -> & _).
    apply (follows_requests_call code fuel fuel key data). }
  assert (state_of (publish code fuel key data r)
          = exec_all (requested_ops (trace_of (publish code fuel key data r))) r) as Hpub.
  { unfold publish.
    destruct (top_state (publish_with code (perform code fuel) fuel key data) r)
      as (-> & -> & _).
    apply (follows_requests_publish code fuel fuel key data). }
  split_and!; [done..|].
  intros Hreach. rewrite Hcall, Hpub. split; by apply reachable_exec_all.
Qed.

(** X11: in a registry built through the class, when the subscribers of an
    action return at once and the function registered for it does nothing
    but apply [done] to results in turn, [call] gives every subscriber of the
    action exactly those results, in that order, one application per [done]:
    none when [done] is never applied, several when it is applied several
    times.  A function that is not subscribed to the action receives
    nothing. *)
Theorem X11_one_publish_per_done
    (code : user_functions) (fuel : nat) (r : registry) (name : string) (action : Action)
    (f cb : fn) (payload : jsval) (results : list jsval) :
  reachable r →
  r !! name = Some action → func action = Some f →
  handler_body code f name payload = apply_dones name results →
  (∀ each result, each ∈ subscribers action → subscriber_body code each result = Return) →
  length (subscribers action) < fuel →
  calls_of name cb (trace_of (call code fuel name payload r))
  = if bool_decide (cb ∈ subscribers action) then results else [].
Proof.
  intros Hreach Hk Hf Hbody Hret Hfuel.
  erewrite call_handler_dones by done. cbn [trace_of snd calls_of].
  case_bool_decide as Hin.
  - apply calls_of_done_events_subscribed; [|done]. by eapply reachable_no_duplicates.
  - by apply calls_of_done_events_not_subscribed.
Qed.

(** *** Invariants of the registry *)

(** X12: whatever the client does, no subscriber array ever holds the same
    function twice. *)
Theorem X12_no_duplicate_subscribers
    (actions : gmap string jsval) (ops : list op) (k : string) (action : Action) :
  exec_all ops (constructor actions) !! k = Some action →
  NoDup (subscribers action).
Proof.
  intros Hk. eapply reachable_no_duplicates; [|done].
  by exists actions, ops.
Qed.

(** *** on and unsubscribe together *)

(** X13: subscribing a function that was not subscribed and unsubscribing
    it at once gives back the registry as it was: every record, the order of
    the other subscribers included. *)
Theorem X13_on_unsubscribe_round_trip
    (r : registry) (name : string) (action : Action) (cb : fn) :
  r !! name = Some action → cb ∉ subscribers action →
  let r1 := state_of (on (VString name) (VFunction cb) r) in
  result_of (on (VString name) (VFunction cb) r) = Normal (VFunction cb) ∧
  unsubscribe name (VFunction cb) r1 = (Normal (), r, []).
Proof.
  intros Hk Hn r1. subst r1. erewrite on_new by done.
  cbn [state_of result_of fst snd]. split; [done|].
  erewrite unsubscribe_found; [|by rewrite lookup_insert_eq|]; cycle 1.
  { cbn [subscribers]. by apply find_callback_middle. }
  cbn [subscribers func Nat.add]. rewrite splice1_middle, app_nil_r.
  by rewrite insert_insert_eq, action_eta, insert_id.
Qed.

(** X14: in a registry built through the class, unsubscribing a subscribed
    function and subscribing it again does not give its place back: the
    function is then the last subscriber, after the others in their order,
    and [on] returns it as for a new subscription. *)
Theorem X14_resubscribe_goes_last
    (r : registry) (name : string) (action : Action) (cb : fn) :
  reachable r →
  r !! name = Some action →
  let r1 := state_of (unsubscribe name (VFunction cb) r) in
  on (VString name) (VFunction cb) r1
  = (Normal (VFunction cb),
     <[name := {| subscribers := filter (λ x, x ≠ cb) (subscribers action) ++ [cb];
                  func := func action |}]> r, []).
Proof.
  intros Hreach Hk r1. subst r1.
  erewrite unsubscribe_filter; [|done|by eapply reachable_no_duplicates].
  cbn [state_of fst snd].
  erewrite on_new; [|by rewrite lookup_insert_eq|]; cycle 1.
  { cbn [subscribers]. rewrite list_elem_of_filter. by intros [Hne _]. }
  by rewrite insert_insert_eq.
Qed.

(** X15: [unsubscribe] with a callback that is not a function (a string, a
    number, [undefined], an object) finds nothing to remove and the registry
    is as it was.  It returns for a declared name and for a name that is
    neither declared nor inherited; for an undeclared name that plain objects
    inherit, like ["toString"], it throws the [TypeError] of reading the
    [length] of the [subscribers] the inherited value has not. *)
Theorem X15_unsubscribe_not_a_function (r : registry) (key : string) (callback : jsval) :
  typeof callback ≠ "function" →
  unsubscribe key callback r
  = (match get r key with
     | Inherited => Throw undefined_length_read
     | _ => Normal ()
     end, r, []).
Proof.
  intros Ht. destruct (r !! key) as [a|] eqn:Hk.
  - rewrite (get_own _ _ _ Hk).
    eapply unsubscribe_not_found; [done|]. by apply find_callback_not_function.
  - destruct (decide (key ∈ Object_prototype)).
    + rewrite get_inherited by done. by apply unsubscribe_inherited.
    + rewrite get_undefined by done. by apply unsubscribe_undeclared.
Qed.

(** X16: in a registry built through the class, a second [unsubscribe] of
    the same callback from the same action changes nothing more, and ends
    as the first did: one call removes the callback for good. *)
Theorem X16_unsubscribe_twice
    (r : registry) (key : string) (callback : jsval) :
  reachable r →
  let run1 := unsubscribe key callback r in
  unsubscribe key callback (state_of run1) = (result_of run1, state_of run1, []).
Proof.
  intros Hreach run1. subst run1.
  destruct (r !! key) as [a|] eqn:Hk; cycle 1.
  { destruct (unsubscribe_not_own key callback r Hk) as [c Hc]. by rewrite Hc. }
  destruct (decide (typeof callback = "function")) as [[cb ->]%typeof_function|Ht]; cycle 1.
  { erewrite (unsubscribe_not_found key callback r);
      [|done|by apply find_callback_not_function].
    eapply unsubscribe_not_found; [done|by apply find_callback_not_function]. }
  erewrite (unsubscribe_filter r); [|done|by eapply reachable_no_duplicates].
  cbn [state_of result_of fst snd].
  eapply unsubscribe_not_found; [by rewrite lookup_insert_eq|].
  cbn [subscribers]. apply find_callback_None.
  rewrite list_elem_of_filter. by intros [Hne _].
Qed.

(** *** Where functions and subscribers come from *)

(** One method call changes the function of an action only when it is a
    [registerAsync] for that name, and then from none to the function given. *)
Lemma exec_func_step (o : op) (r : registry) (k : string) :
  func <$> exec o r !! k = func <$> r !! k ∨
  ∃ f, o = RegisterAsync (VString k) (VFunction f) ∧
       func <$> r !! k = Some None ∧
       func <$> exec o r !! k = Some (Some f).
Proof.
  destruct o as [key f|key data|key data|key callback|key callback]; cbn [exec].
  - destruct key as [| | | |k0| |]; try (by left).
    destruct f as [| | | | | |f]; try (by left).
    destruct (r !! k0) as [a|] eqn:Hk; [|left; by destruct (registerAsync_not_own k0 f r Hk) as [msg ->]].
    destruct (func a) as [g|] eqn:Hf; [left; by erewrite registerAsync_registered|].
    erewrite registerAsync_fresh by done. cbn [state_of fst snd].
    destruct (decide (k0 = k)) as [->|Hne].
    + right. exists f. rewrite lookup_insert_eq, Hk. cbn. by rewrite Hf.
    + left. by rewrite lookup_insert_ne.
  - by left.
  - by left.
  - left. destruct key as [| | | |k0| |]; try done.
    destruct callback as [| | | | | |cb]; try done.
    destruct (r !! k0) as [a|] eqn:Hk;
      [|by destruct (on_not_own k0 cb r Hk) as [msg ->]].
    destruct (decide (cb ∈ subscribers a)) as [Hin|Hn]; [by erewrite on_present|].
    erewrite on_new by done. cbn [state_of fst snd].
    destruct (decide (k0 = k)) as [->|Hne].
    + by rewrite lookup_insert_eq, Hk.
    + by rewrite lookup_insert_ne.
  - left. destruct (r !! key) as [a|] eqn:Hk;
      [|by destruct (unsubscribe_not_own key callback r Hk) as [c ->]].
    destruct (find_callback callback (subscribers a) 0) as [i|] eqn:Hfind;
      [|by erewrite unsubscribe_not_found].
    erewrite unsubscribe_found by done. cbn [state_of fst snd].
    destruct (decide (key = k)) as [->|Hne].
    + by rewrite lookup_insert_eq, Hk.
    + by rewrite lookup_insert_ne.
Qed.

(** A subscriber found after one method call was there before, or the call
    is the [on] that subscribes it to that action. *)
Lemma exec_subscribers_step (o : op) (r : registry) (k : string) (action' : Action) (cb : fn) :
  exec o r !! k = Some action' → cb ∈ subscribers action' →
  (∃ action, r !! k = Some action ∧ cb ∈ subscribers action) ∨
  o = On (VString k) (VFunction cb).
Proof.
  destruct o as [key f|key data|key data|key callback|key callback]; cbn [exec].
  - intros Hk' Hin. left.
    destruct key as [| | | |k0| |]; try (by exists action').
    destruct f as [| | | | | |f]; try (by exists action').
    destruct (r !! k0) as [a|] eqn:Hk;
      [|destruct (registerAsync_not_own k0 f r Hk) as [msg Hmsg];
        rewrite Hmsg in Hk'; by exists action'].
    destruct (func a) as [g|] eqn:Hf;
      [erewrite registerAsync_registered in Hk' by done; by exists action'|].
    erewrite registerAsync_fresh in Hk' by done. cbn [state_of fst snd] in Hk'.
    destruct (decide (k0 = k)) as [->|Hne].
    + rewrite lookup_insert_eq in Hk'. injection Hk' as <-.
      by apply elem_of_nil in Hin.
    + rewrite lookup_insert_ne in Hk' by done. by exists action'.
  - intros Hk' Hin. left. by exists action'.
  - intros Hk' Hin. left. by exists action'.
  - intros Hk' Hin.
    destruct key as [| | | |k0| |]; try (left; by exists action').
    destruct callback as [| | | | | |cb0]; try (left; by exists action').
    destruct (r !! k0) as [a|] eqn:Hk;
      [|destruct (on_not_own k0 cb0 r Hk) as [msg Hmsg];
        rewrite Hmsg in Hk'; left; by exists action'].
    destruct (decide (cb0 ∈ subscribers a)) as [Hin0|Hn0];
      [erewrite on_present in Hk' by done; left; by exists action'|].
    erewrite on_new in Hk' by done. cbn [state_of fst snd] in Hk'.
    destruct (decide (k0 = k)) as [->|Hne].
    + rewrite lookup_insert_eq in Hk'. injection Hk' as <-. cbn in Hin.
      apply elem_of_app in Hin as [Hin|Hin].
      * left. by exists a.
      * apply list_elem_of_singleton in Hin as ->. by right.
    + rewrite lookup_insert_ne in Hk' by done. left. by exists action'.
  - intros Hk' Hin. left.
    destruct (r !! key) as [a|] eqn:Hk;
      [|destruct (unsubscribe_not_own key callback r Hk) as [c Hc];
        rewrite Hc in Hk'; by exists action'].
    destruct (find_callback callback (subscribers a) 0) as [i|] eqn:Hfind;
      [|erewrite unsubscribe_not_found in Hk' by done; by exists action'].
    erewrite unsubscribe_found in Hk' by done. cbn [state_of fst snd] in Hk'.
    destruct (decide (key = k)) as [->|Hne].
    + rewrite lookup_insert_eq in Hk'. injection Hk' as <-. cbn in Hin.
      exists a. split; [done|]. rewrite splice1_delete in Hin.
      eapply elem_of_sublist; [done|apply sublist_delete].
    + rewrite lookup_insert_ne in Hk' by done. by exists action'.
Qed.

(** X17: method calls other than [registerAsync] - [call], [publish], [on],
    [unsubscribe], in any number and order - leave the function of every
    action as it was, registered or not. *)
Theorem X17_only_registerAsync_sets_func (ops : list op) (r : registry) (k : string) :
  Forall (λ o, ∀ key func_, o ≠ RegisterAsync key func_) ops →
  func <$> exec_all ops r !! k = func <$> r !! k.
Proof.
  intros Hops. revert r. induction Hops as [|o ops Ho Hops IH]; intros r; [done|].
  rewrite exec_all_cons, IH.
  destruct (exec_func_step o r k) as [->|(f & -> & _)]; [done|].
  by destruct (Ho (VString k) (VFunction f)).
Qed.

(** X18: the class subscribes nothing by itself: after any method calls on a
    constructed registry, every subscriber of an action was given to [on]
    for that action in one of the calls. *)
Theorem X18_subscribers_come_from_on
    (actions : gmap string jsval) (ops : list op) (k : string) (action : Action) (cb : fn) :
  exec_all ops (constructor actions) !! k = Some action →
  cb ∈ subscribers action →
  On (VString k) (VFunction cb) ∈ ops.
Proof.
  assert (∀ (r : registry) a', exec_all ops r !! k = Some a' →
            cb ∈ subscribers a' →
            (∃ a, r !! k = Some a ∧ cb ∈ subscribers a) ∨
            On (VString k) (VFunction cb) ∈ ops) as Hgen.
  { induction ops as [|o ops IH]; intros r a' Hk Hin; [left; by exists a'|].
    rewrite exec_all_cons in Hk.
    destruct (IH _ _ Hk Hin) as [(a & Hk1 & Hin1)|Hops]; [|right; by right].
    destruct (exec_subscribers_step o r k a cb Hk1 Hin1) as [?| ->]; [by left|].
    right. left. }
  intros Hk Hin. destruct (Hgen _ _ Hk Hin) as [(a & Hk0 & Hin0)|?]; [|done].
  rewrite lookup_constructor in Hk0. destruct (actions !! k); [|done].
  injection Hk0 as <-. by apply elem_of_nil in Hin0.
Qed.

(** X19: after any method calls on a constructed registry, the function of
    an action, when there is one, was given to [registerAsync] for that
    action in one of the calls. *)
Theorem X19_func_comes_from_registerAsync
    (actions : gmap string jsval) (ops : list op) (k : string) (action : Action) (f : fn) :
  exec_all ops (constructor actions) !! k = Some action →
  func action = Some f →
  RegisterAsync (VString k) (VFunction f) ∈ ops.
Proof.
  assert (∀ r : registry, func <$> exec_all ops r !! k = Some (Some f) →
            func <$> r !! k = Some (Some f) ∨
            RegisterAsync (VString k) (VFunction f) ∈ ops) as Hgen.
  { induction ops as [|o ops IH]; intros r Hk; [by left|].
    rewrite exec_all_cons in Hk.
    destruct (IH _ Hk) as [Hk1|Hops]; [|right; by right].
    destruct (exec_func_step o r k) as [Hsame|(g & -> & _ & Hg)].
    - left. by rewrite <- Hsame.
    - right. rewrite Hk1 in Hg. injection Hg as ->. left. }
  intros Hk Hf.
  assert (func <$> exec_all ops (constructor actions) !! k = Some (Some f))
    as Hk' by (by rewrite Hk, <- Hf).
  destruct (Hgen _ Hk') as [Hk0|?]; [|done].
  rewrite lookup_constructor in Hk0. by destruct (actions !! k).
Qed.

(** A subscriber stays through one method call that is neither its
    [unsubscribe] nor a [registerAsync] for the action. *)
Lemma exec_subscriber_kept (o : op) (r : registry) (k : string) (action : Action) (cb : fn) :
  r !! k = Some action → cb ∈ subscribers action →
  o ≠ Unsubscribe k (VFunction cb) →
  (∀ func_, o ≠ RegisterAsync (VString k) func_) →
  ∃ action', exec o r !! k = Some action' ∧ cb ∈ subscribers action'.
Proof.
  intros Hk Hin Hunsub Hreg.
  destruct o as [key f|key data|key data|key callback|key callback]; cbn [exec].
  - destruct key as [| | | |k0| |]; try (by exists action).
    destruct f as [| | | | | |f]; try (by exists action).
    destruct (r !! k0) as [a|] eqn:Hk0;
      [|destruct (registerAsync_not_own k0 f r Hk0) as [msg ->]; by exists action].
    destruct (func a) as [g|] eqn:Hf;
      [erewrite registerAsync_registered by done; by exists action|].
    erewrite registerAsync_fresh by done. cbn [state_of fst snd].
    destruct (decide (k0 = k)) as [->|Hne]; [by destruct (Hreg (VFunction f))|].
    rewrite lookup_insert_ne by done. by exists action.
  - by exists action.
  - by exists action.
  - destruct key as [| | | |k0| |]; try (by exists action).
    destruct callback as [| | | | | |cb0]; try (by exists action).
    destruct (r !! k0) as [a|] eqn:Hk0;
      [|destruct (on_not_own k0 cb0 r Hk0) as [msg ->]; by exists action].
    destruct (decide (cb0 ∈ subscribers a)) as [Hin0|Hn0];
      [erewrite on_present by done; by exists action|].
    erewrite on_new by done. cbn [state_of fst snd].
    destruct (decide (k0 = k)) as [->|Hne].
    + rewrite lookup_insert_eq. eexists. split; [done|]. cbn.
      rewrite Hk in Hk0. injection Hk0 as <-. apply elem_of_app. by left.
    + rewrite lookup_insert_ne by done. by exists action.
  - destruct (decide (key = k)) as [->|Hne]; cycle 1.
    { rewrite unsubscribe_frame by done. by exists action. }
    destruct (find_callback callback (subscribers action) 0) as [i|] eqn:Hfind;
      [|erewrite unsubscribe_not_found by done; by exists action].
    erewrite unsubscribe_found by done. cbn [state_of fst snd].
    rewrite lookup_insert_eq. eexists. split; [done|]. cbn [subscribers].
    destruct (decide (typeof callback = "function")) as [[cb0 ->]%typeof_function|Ht];
      [|by rewrite find_callback_not_function in Hfind].
    destruct (find_callback_Some _ _ _ _ Hfind) as (l1 & l2 & Hsubs & _ & ->).
    cbn [Nat.add]. rewrite Hsubs, splice1_middle. rewrite Hsubs in Hin.
    rewrite elem_of_app in Hin. rewrite elem_of_app.
    destruct Hin as [?|Hin]; [by left|].
    apply elem_of_cons in Hin as [->|?]; [done|by right].
Qed.

(** X20: a subscription lasts: a subscribed callback is still subscribed
    after any method calls among which there is neither an [unsubscribe] of
    that callback from that action nor a [registerAsync] for that action. *)
Theorem X20_subscription_lasts
    (ops : list op) (r : registry) (k : string) (action : Action) (cb : fn) :
  r !! k = Some action → cb ∈ subscribers action →
  Forall (λ o, o ≠ Unsubscribe k (VFunction cb) ∧
               ∀ func_, o ≠ RegisterAsync (VString k) func_) ops →
  ∃ action', exec_all ops r !! k = Some action' ∧ cb ∈ subscribers action'.
Proof.
  intros Hk Hin Hops.
  revert r action Hk Hin. induction Hops as [|o ops [Hu Hr] Hops IH];
    intros r action Hk Hin; [by exists action|].
  rewrite exec_all_cons.
  destruct (exec_subscriber_kept o r k action cb Hk Hin Hu Hr) as (a1 & Hk1 & Hin1).
  by eapply IH.
Qed.


(** *** Names that are not declared *)

(** X21: on a name that was not given to the constructor and that plain
    objects do not inherit, [call], [publish], the [done] closure and
    [unsubscribe] do nothing, whatever the user functions are: they return,
    apply no function, and the registry is as it was. *)
Theorem X21_unknown_name_noop
    (code : user_functions) (fuel : nat) (actions : gmap string jsval) (ops : list op)
    (name : string) (data callback : jsval) :
  actions !! name = None → name ∉ Object_prototype →
  let r := exec_all ops (constructor actions) in
  call code fuel name data r = (Some (Normal ()), r, []) ∧
  publish code fuel name data r = (Some (Normal ()), r, []) ∧
  buildDoneFunction code fuel name data r = (Some (Normal ()), r, []) ∧
  unsubscribe name callback r = (Normal (), r, []).
Proof.
  intros Hname Hn r.
  assert (r !! name = None) as Hr by by apply exec_all_undeclared.
  split_and!.
  - by apply call_undefined.
  - by apply publish_undefined.
  - by apply publish_undefined.
  - by apply unsubscribe_undeclared.
Qed.

(** X22: on a name that is not declared and that plain objects inherit
    ([toString], [constructor], [valueOf], ...), every method throws and the
    registry is as it was: [call] and [publish] the [TypeError] of iterating
    [undefined], [unsubscribe] and [on] the one of reading a property of
    [undefined], [registerAsync] the error of an action already registered. *)
Theorem X22_inherited_name_throws
    (code : user_functions) (fuel : nat) (r : registry) (name : string)
    (data callback : jsval) (f cb : fn) :
  r !! name = None → name ∈ Object_prototype →
  call code fuel name data r = (Some (Throw subscribers_not_iterable), r, []) ∧
  publish code fuel name data r = (Some (Throw subscribers_not_iterable), r, []) ∧
  unsubscribe name callback r = (Throw undefined_length_read, r, []) ∧
  on (VString name) (VFunction cb) r = (Throw undefined_includes_read, r, []) ∧
  registerAsync (VString name) (VFunction f) r
  = (Throw (Error "Actions.registerAsync: action already registered"), r, []).
Proof.
  intros Hk Hin. split_and!.
  - by apply call_inherited.
  - by apply publish_inherited.
  - by apply unsubscribe_inherited.
  - by apply on_inherited.
  - by apply registerAsync_inherited.
Qed.

(** *** The subscriber array during a cycle *)

(** X23: the loop of [publish] reads the array at each step.  When a
    subscriber unsubscribes itself as it is applied, the subscriber after it
    moves under the index the loop has passed and is not applied in that
    cycle; the others are (they return at once), and [publish] returns with
    the subscriber gone from the array. *)
Theorem X23_unsubscribe_during_publish
    (code : user_functions) (fuel : nat) (r : registry) (key : string) (data : jsval)
    (action : Action) (l1 l2 : list fn) (each next : fn) :
  r !! key = Some action →
  subscribers action = l1 ++ each :: next :: l2 →
  NoDup (subscribers action) →
  (∀ x, x ∈ l1 ++ l2 → subscriber_body code x data = Return) →
  subscriber_body code each data
  = Request (Method (Unsubscribe key (VFunction each))) (uncaught Return) →
  length (subscribers action) ≤ fuel →
  publish code fuel key data r
  = (Some (Normal ()),
     <[key := {| subscribers := l1 ++ next :: l2; func := func action |}]> r,
     ((λ x, InvokeSubscriber key x data) <$> l1)
       ++ InvokeSubscriber key each data
       :: Requests (Method (Unsubscribe key (VFunction each)))
       :: ((λ x, InvokeSubscriber key x data) <$> l2)).
Proof.
  intros Hk Hsubs Hnd Hret Hbody Hfuel.
  assert (each ∉ l1) as Hn1.
  { rewrite Hsubs in Hnd. apply NoDup_app in Hnd as (_ & Hnd & _).
    intros Hin. apply (Hnd _ Hin). left. }
  rewrite Hsubs, length_app in Hfuel. cbn [length] in Hfuel.
  set (s0 := {| registry_of := r; old_arrays := ∅ |}).
  set (s1 := {| registry_of := <[key := {| subscribers := l1 ++ next :: l2;
                                           func := func action |}]> r;
                old_arrays := ∅ |}).
  set (first := bool_decide (func action = None)).
  assert (walked_array key first s0 = l1 ++ each :: next :: l2) as Harr0
    by (unfold s0; by erewrite walked_array_start).
  assert (walked_array key first s1 = l1 ++ next :: l2) as Harr1
    by (unfold s1; by erewrite walked_array_start; [|by rewrite lookup_insert_eq]).
  assert (apply_subscriber code (perform code fuel) key each data s0
          = (Some (Normal ()), s1,
             [InvokeSubscriber key each data;
              Requests (Method (Unsubscribe key (VFunction each)))])) as Happly.
  { unfold apply_subscriber, mbind, Run_bind. cbn [emit].
    rewrite Hbody, run_prog_request, perform_unsubscribe.
    unfold mbind, Run_bind, lift. cbn [s0 registry_of old_arrays].
    erewrite unsubscribe_found; [|done|]; cycle 1.
    { rewrite Hsubs. by apply find_callback_middle. }
    cbn [Nat.add]. by rewrite Hsubs, splice1_middle. }
  unfold publish, top, publish_with. cbn [registry_of].
  rewrite (get_own _ _ _ Hk). fold s0 first.
  replace fuel with (length l1 + S (length l2 + (fuel - S (length l1) - length l2))) at 2
    by lia.
  rewrite publish_loop_prefix; cycle 1.
  { intros x Hx. apply Hret, elem_of_app. by left. }
  { by rewrite Harr0, drop_0, take_app_length. }
  cbn [Nat.add].
  assert (walked_array key first s0 !! length l1 = Some each) as Hi
    by (rewrite Harr0; by apply list_lookup_middle).
  rewrite (publish_loop_step code _ key data first s0 _ _ each s1 _ Hi Happly).
  rewrite publish_loop_prefix; cycle 1.
  { intros x Hx. apply Hret, elem_of_app. by right. }
  { rewrite Harr1, drop_app_ge by lia.
    replace (S (length l1) - length l1) with 1 by lia. cbn [drop]. by apply take_ge. }
  rewrite publish_loop_end; cycle 1.
  { rewrite Harr1, length_app. cbn [length]. lia. }
  cbn. by rewrite !app_nil_r.
Qed.

(** X24: when a subscriber subscribes a new callback as it is applied, the
    callback goes to the end of the array the loop is walking and is applied
    in the same cycle, after the subscribers that were there (all returning
    at once). *)
Theorem X24_subscribe_during_publish
    (code : user_functions) (fuel : nat) (r : registry) (key : string) (data : jsval)
    (action : Action) (l1 l2 : list fn) (each cb : fn) :
  r !! key = Some action →
  subscribers action = l1 ++ each :: l2 →
  cb ∉ subscribers action →
  (∀ x, x ∈ l1 ++ l2 ++ [cb] → subscriber_body code x data = Return) →
  subscriber_body code each data
  = Request (Method (On (VString key) (VFunction cb))) (uncaught Return) →
  length (subscribers action) < fuel →
  publish code fuel key data r
  = (Some (Normal ()),
     <[key := {| subscribers := subscribers action ++ [cb]; func := func action |}]> r,
     ((λ x, InvokeSubscriber key x data) <$> l1)
       ++ InvokeSubscriber key each data
       :: Requests (Method (On (VString key) (VFunction cb)))
       :: ((λ x, InvokeSubscriber key x data) <$> (l2 ++ [cb]))).
Proof.
  intros Hk Hsubs Hn Hret Hbody Hfuel.
  rewrite Hsubs, length_app in Hfuel. cbn [length] in Hfuel.
  set (s0 := {| registry_of := r; old_arrays := ∅ |}).
  set (s1 := {| registry_of := <[key := {| subscribers := subscribers action ++ [cb];
                                           func := func action |}]> r;
                old_arrays := ∅ |}).
  set (first := bool_decide (func action = None)).
  assert (walked_array key first s0 = l1 ++ each :: l2) as Harr0
    by (unfold s0; by erewrite walked_array_start).
  assert (walked_array key first s1 = l1 ++ each :: (l2 ++ [cb])) as Harr1.
  { unfold s1. erewrite walked_array_start; [|by rewrite lookup_insert_eq].
    cbn [subscribers]. by rewrite Hsubs, <- (assoc_L (++)). }
  assert (apply_subscriber code (perform code fuel) key each data s0
          = (Some (Normal ()), s1,
             [InvokeSubscriber key each data;
              Requests (Method (On (VString key) (VFunction cb)))])) as Happly.
  { unfold apply_subscriber, mbind, Run_bind. cbn [emit].
    rewrite Hbody, run_prog_request, perform_on.
    unfold lift. cbn [s0 registry_of old_arrays].
    by erewrite on_new by done. }
  unfold publish, top, publish_with. cbn [registry_of].
  rewrite (get_own _ _ _ Hk). fold s0 first.
  replace fuel
    with (length l1 + S (length (l2 ++ [cb]) + (fuel - S (length l1) - length (l2 ++ [cb]))))
    at 2 by (rewrite length_app; cbn [length]; lia).
  rewrite publish_loop_prefix; cycle 1.
  { intros x Hx. apply Hret, elem_of_app. by left. }
  { by rewrite Harr0, drop_0, take_app_length. }
  cbn [Nat.add].
  assert (walked_array key first s0 !! length l1 = Some each) as Hi
    by (rewrite Harr0; by apply list_lookup_middle).
  rewrite (publish_loop_step code _ key data first s0 _ _ each s1 _ Hi Happly).
  rewrite publish_loop_prefix; cycle 1.
  { intros x Hx. apply Hret, elem_of_app. by right. }
  { rewrite Harr1, drop_app_ge by lia.
    replace (S (length l1) - length l1) with 1 by lia. cbn [drop]. by apply take_ge. }
  rewrite publish_loop_end; cycle 1.
  { rewrite Harr1, !length_app. cbn [length]. rewrite length_app. cbn [length]. lia. }
  cbn. by rewrite !app_nil_r.
Qed.

(** *** One action at a time *)

(** X26: [call] and [publish] on an action apply the subscribers of that
    action only: whatever the user functions do, a subscriber of another
    action is applied in the run only after a user function has asked for a
    publish to that other action - its [done] applied, or [publish] or
    [call] called with its name. *)
Theorem X26_other_actions_on_request_only
    (code : user_functions) (fuel : nat) (key name : string) (data : jsval) (r : registry) :
  key ≠ name →
  applied_after_published name (trace_of (call code fuel key data r)) ∧
  applied_after_published name (trace_of (publish code fuel key data r)).
Proof.
  intros Hne. split.
  - unfold call.
    destruct (top_state (call_with code (perform code fuel) fuel key data) r) as (_ & -> & _).
    apply gated_call_with; [done|apply gated_perform].
  - unfold publish.
    destruct (top_state (publish_with code (perform code fuel) fuel key data) r)
      as (_ & -> & _).
    apply gated_publish_with; [done|apply gated_perform].
Qed.

(** *** Fuel *)

(** X25: the fuel bounds a run and does nothing else: a [call] or a
    [publish] that ends with a completion ends with the same completion, the
    same registry and the same trace when it is given more fuel. *)
Theorem X25_more_fuel_same_run
    (code : user_functions) (fuel fuel' : nat) (key : string) (data : jsval) (r r' : registry)
    (c : completion unit) (t : list event) :
  fuel ≤ fuel' →
  (call code fuel key data r = (Some c, r', t) →
   call code fuel' key data r = (Some c, r', t)) ∧
  (publish code fuel key data r = (Some c, r', t) →
   publish code fuel' key data r = (Some c, r', t)).
Proof.
  intros Hle. split.
  - by apply call_mono.
  - by apply publish_mono.
Qed.

(** ** The methods on concrete registries *)

Ltac returns_at_once :=
  let Hin := fresh "Hin" in
  intros; match goal with Hin : _ ∈ _ |- _ =>
    repeat (apply elem_of_cons in Hin as [->|Hin]; [reflexivity|]);
    by apply elem_of_nil in Hin
  end.

(** Register the handler on [load], subscribe function 1, call [load] with
    5: the subscriber receives [{ id: 5, value: 10 }], once. *)
Example scenario_load :
  let r := exec_all [RegisterAsync (VString "load") (VFunction 7);
                     On (VString "load") (VFunction 1)]
             (constructor {[ "load" := VNull ]}) in
  calls_of "load" 1 (trace_of (call example_functions 2 "load" (VNumber 5) r))
  = [VObject [("id", VNumber 5); ("value", VNumber 10)]].
Proof. by vm_compute. Qed.

(** A handler that never applies [done]: nothing is published. *)
Example scenario_never_done :
  let r := exec_all [RegisterAsync (VString "load") (VFunction 9);
                     On (VString "load") (VFunction 1)]
             (constructor {[ "load" := VNull ]}) in
  call example_functions 2 "load" (VNumber 5) r
  = (Some (Normal ()), r, [InvokeHandler 9 "load" (VNumber 5)]).
Proof. by vm_compute. Qed.

(** A subscriber that throws ends the cycle: the subscriber after it is not
    applied, and the exception leaves [call]. *)
Example scenario_listener_throws :
  let r := exec_all [On (VString "ping") (VFunction 1); On (VString "ping") (VFunction 4);
                     On (VString "ping") (VFunction 2)]
             (constructor {[ "ping" := VNull ]}) in
  call example_functions 3 "ping" VNull r
  = (Some (Throw (Error "listener failed")), r,
     [InvokeSubscriber "ping" 1 VNull; InvokeSubscriber "ping" 4 VNull]).
Proof. by vm_compute. Qed.

(** A function is registered by a subscriber during a cycle: the cycle goes
    on over the array it began on, and the record has a new, empty one. *)
Example scenario_register_during_publish :
  let code := {| subscriber_body each data :=
                   match each with
                   | 1 => Request (Method (RegisterAsync (VString "ping") (VFunction 7)))
                            (uncaught Return)
                   | _ => Return
                   end;
                 handler_body f done_key data := Return |} in
  let r := exec_all [On (VString "ping") (VFunction 1); On (VString "ping") (VFunction 2)]
             (constructor {[ "ping" := VNull ]}) in
  publish code 2 "ping" VNull r
  = (Some (Normal ()), <["ping" := {| subscribers := []; func := Some 7 |}]> r,
     [InvokeSubscriber "ping" 1 VNull;
      Requests (Method (RegisterAsync (VString "ping") (VFunction 7)));
      InvokeSubscriber "ping" 2 VNull]).
Proof. by vm_compute. Qed.

(** A subscriber that publishes the action it is subscribed to: the run does
    not end, whatever the fuel it is given. *)
Example scenario_endless :
  let code := {| subscriber_body each data :=
                   Request (Method (Publish "ping" data)) (uncaught Return);
                 handler_body f done_key data := Return |} in
  let r := exec_all [On (VString "ping") (VFunction 1)] (constructor {[ "ping" := VNull ]}) in
  result_of (publish code 50 "ping" VNull r) = None.
Proof. by vm_compute. Qed.

(** The argument checks of [registerAsync] and [on]. *)
Example scenario_type_errors :
  let r := constructor {[ "x" := VNull ]} in
  result_of (registerAsync (VNumber 1) (VFunction 1) r)
  = Throw (TypeError "Actions.registerAsync: key argument must be a string") ∧
  result_of (registerAsync (VString "x") VNull r)
  = Throw (TypeError "Actions.registerAsync: func argument must be a function") ∧
  result_of (on VUndefined (VFunction 1) r)
  = Throw (TypeError "Actions.on: key argument must be a string") ∧
  result_of (on (VString "x") (VString "x") r)
  = Throw (TypeError "Actions.on: callback argument must be a function").
Proof. by vm_compute. Qed.

(** *** Subscribers that change the array they are called from *)





(** Callback 2 is unsubscribed; in the publish that follows, subscriber 6
    subscribes it again, and the loop, which reads the array at each step,
    applies it. *)
Lemma C9_publish_applies_unsubscribed :
  let r := exec_all [On (VString "ping") (VFunction 6); On (VString "ping") (VFunction 2)]
             (constructor {[ "ping" := VNull ]}) in
  let run := unsubscribe "ping" (VFunction 2) r in
  r !! "ping" = Some {| subscribers := [6; 2]; func := None |} ∧
  result_of run = Normal () ∧
  subscribers <$> state_of run !! "ping" = Some [6] ∧
  ∀ fuel, 3 ≤ fuel →
    publish example_functions fuel "ping" VNull (state_of run)
    = (Some (Normal ()), r,
       [InvokeSubscriber "ping" 6 VNull;
        Requests (Method (On (VString "ping") (VFunction 2)));
        InvokeSubscriber "ping" 2 VNull]) ∧
    calls_of "ping" 2 (trace_of (publish example_functions fuel "ping" VNull (state_of run)))
    = [VNull].
Proof.
  cbn zeta. split_and!; [by vm_compute..|].
  intros fuel Hfuel.
  erewrite (publish_mono example_functions 3 fuel); [|done|by vm_compute]. done.
Qed.

(** *** The properties on concrete registries *)



Lemma C6_at_most_one_handler_witness :
  let r : registry := constructor {[ "load" := VNull ]} in
  let action := {| subscribers := []; func := None |} in
  r !! "load" = Some action ∧ func action = None ∧
  result_of (registerAsync (VString "load") (VFunction 7) r) = Normal () ∧
  func <$> state_of (registerAsync (VString "load") (VFunction 7) r) !! "load"
  = Some (Some 7).
Proof.
  intros r action.
  assert (r !! "load" = Some action) as Hk by (vm_compute; reflexivity).
  assert (func action = None) as Hf by reflexivity.
  split; [exact Hk|]. split; [exact Hf|].
  destruct (C6_at_most_one_handler r "load" action 7 Hk Hf) as (Hres & Hfunc & _).
  split; [exact Hres|exact Hfunc].
Defined.



Lemma C9_unsubscribe_removes_witness :
  let r : registry := exec_all [On (VString "ping") (VFunction 1); On (VString "ping") (VFunction 2);
                                On (VString "ping") (VFunction 3)]
                        (constructor {[ "ping" := VNull ]}) in
  let action := {| subscribers := [1; 2; 3]; func := None |} in
  let action' := {| subscribers := [1; 3]; func := None |} in
  let run := unsubscribe "ping" (VFunction 2) r in
  reachable r ∧ r !! "ping" = Some action ∧
  result_of run = Normal () ∧
  state_of run !! "ping" = Some action' ∧
  subscribers action' = filter (λ x, x ≠ 2) (subscribers action) ∧
  applied_after_subscribed "ping" 2
    (trace_of (publish example_functions 2 "ping" VNull (state_of run))) ∧
  (∀ each, each ∈ subscribers action' →
     subscriber_body example_functions each VNull = Return) ∧
  length (subscribers action') ≤ 2 ∧
  calls_of "ping" 2 (trace_of (publish example_functions 2 "ping" VNull (state_of run))) = [].
Proof.
  intros r action action' run.
  assert (reachable r) as Hreach by (eexists _, _; reflexivity).
  assert (r !! "ping" = Some action) as Hk by (vm_compute; reflexivity).
  assert (∀ each, each ∈ subscribers action' →
            subscriber_body example_functions each VNull = Return) as Hret
    by returns_at_once.
  assert (length (subscribers action') ≤ 2) as Hfuel by (simpl; lia).
  split; [exact Hreach|]. split; [exact Hk|].
  destruct (C9_unsubscribe_removes r "ping" action 2 Hreach Hk)
    as (Hres & _ & a' & Hk' & _ & _ & Hsubs & _ & Hpublish).
  assert (a' = action') as ->.
  { assert (state_of (unsubscribe "ping" (VFunction 2) r) !! "ping" = Some action') as Hk2
      by (vm_compute; reflexivity).
    rewrite Hk2 in Hk'. injection Hk' as Heq. symmetry. exact Heq. }
  split; [exact Hres|]. split; [exact Hk'|]. split; [exact Hsubs|].
  destruct (Hpublish example_functions 2 VNull) as (Hafter & _ & Hnever).
  split; [exact Hafter|]. split; [exact Hret|]. split; [exact Hfuel|].
  exact (Hnever Hret Hfuel).
Defined.

Lemma C10_other_actions_untouched_witness :
  "a" ≠ "b" ∧
  let r : registry := constructor {[ "a" := VNull; "b" := VNull ]} in
  state_of (registerAsync (VString "a") (VFunction 7) r) !! "b" = r !! "b" ∧
  state_of (on (VString "a") (VFunction 1) r) !! "b" = r !! "b" ∧
  state_of (unsubscribe "a" (VFunction 1) r) !! "b" = r !! "b".
Proof.
  assert ("a" ≠ "b") as Hne by discriminate.
  split; [exact Hne|].
  exact (C10_other_actions_untouched (constructor {[ "a" := VNull; "b" := VNull ]})
           "a" "b" (VFunction 7) (VFunction 1) Hne).
Defined.

(** ** The further properties on concrete registries *)

Lemma X1_constructor_keys_only_witness :
  dom ({[ "x" := VNull ]} : gmap string jsval) =@{gset string} dom ({[ "x" := VNumber 1 ]} : gmap string jsval) ∧
  constructor {[ "x" := VNull ]} = constructor {[ "x" := VNumber 1 ]}.
Proof.
  assert (dom ({[ "x" := VNull ]} : gmap string jsval)
          =@{gset string} dom ({[ "x" := VNumber 1 ]} : gmap string jsval)) as Hdom
    by (vm_compute; reflexivity).
  split; [exact Hdom|].
  exact (proj2 (proj2 (X1_constructor_keys_only {[ "x" := VNull ]} {[ "x" := VNumber 1 ]})) Hdom).
Defined.

Lemma X3_registerAsync_type_errors_witness :
  (typeof (VNumber 1) ≠ "string" ∨ typeof VNull ≠ "function") ∧
  registerAsync (VNumber 1) VNull ∅
  = (Throw (TypeError "Actions.registerAsync: key argument must be a string"), ∅, []).
Proof.
  assert (typeof (VNumber 1) ≠ "string" ∨ typeof VNull ≠ "function") as Hbad
    by (left; discriminate).
  split; [exact Hbad|].
  exact (X3_registerAsync_type_errors (VNumber 1) VNull ∅ Hbad).
Defined.

Lemma X4_registerAsync_all_or_nothing_witness :
  let r : registry := constructor {[ "load" := VNull ]} in
  (∃ k f action, VString "load" = VString k ∧ VFunction 7 = VFunction f ∧
                 r !! k = Some action ∧ func action = None) ∧
  returns (registerAsync (VString "load") (VFunction 7) r).
Proof.
  intros r.
  assert (∃ k f action, VString "load" = VString k ∧ VFunction 7 = VFunction f ∧
                        r !! k = Some action ∧ func action = None) as Hok.
  { exists "load", 7, {| subscribers := []; func := None |}.
    split; [reflexivity|]. split; [reflexivity|].
    split; [vm_compute; reflexivity|reflexivity]. }
  split; [exact Hok|].
  exact (proj2 (proj1 (X4_registerAsync_all_or_nothing (VString "load") (VFunction 7) r)) Hok).
Defined.

Lemma X5_registerAsync_undeclared_witness :
  ({[ "x" := VNull ]} : gmap string jsval) !! "y" = None ∧
  ({[ "x" := VNull ]} : gmap string jsval) !! "toString" = None ∧
  let r := exec_all [On (VString "x") (VFunction 1)] (constructor {[ "x" := VNull ]}) in
  registerAsync (VString "y") (VFunction 7) r
  = (Throw (Error "Actions.registerAsync: action not declared, please add it to the constructor"),
     r, []) ∧
  registerAsync (VString "toString") (VFunction 7) r
  = (Throw (Error "Actions.registerAsync: action already registered"), r, []).
Proof.
  assert (({[ "x" := VNull ]} : gmap string jsval) !! "y" = None) as Hy by reflexivity.
  assert (({[ "x" := VNull ]} : gmap string jsval) !! "toString" = None) as Ht by reflexivity.
  split; [exact Hy|]. split; [exact Ht|]. split.
  - exact (X5_registerAsync_undeclared {[ "x" := VNull ]}
             [On (VString "x") (VFunction 1)] "y" 7 Hy).
  - exact (X5_registerAsync_undeclared {[ "x" := VNull ]}
             [On (VString "x") (VFunction 1)] "toString" 7 Ht).
Defined.

Lemma X6_on_type_errors_witness :
  (typeof (VString "x") ≠ "string" ∨ typeof (VString "cb") ≠ "function") ∧
  on (VString "x") (VString "cb") ∅
  = (Throw (TypeError "Actions.on: callback argument must be a function"), ∅, []).
Proof.
  assert (typeof (VString "x") ≠ "string" ∨ typeof (VString "cb") ≠ "function") as Hbad
    by (right; discriminate).
  split; [exact Hbad|].
  exact (X6_on_type_errors (VString "x") (VString "cb") ∅ Hbad).
Defined.

Lemma X7_on_all_or_nothing_witness :
  let r : registry := constructor {[ "ping" := VNull ]} in
  (∃ k cb, VString "ping" = VString k ∧ VFunction 1 = VFunction cb ∧ is_Some (r !! k)) ∧
  returns (on (VString "ping") (VFunction 1) r).
Proof.
  intros r.
  assert (∃ k cb, VString "ping" = VString k ∧ VFunction 1 = VFunction cb ∧
                  is_Some (r !! k)) as Hok.
  { exists "ping", 1. split; [reflexivity|]. split; [reflexivity|].
    exists {| subscribers := []; func := None |}. vm_compute. reflexivity. }
  split; [exact Hok|].
  exact (proj2 (proj1 (X7_on_all_or_nothing (VString "ping") (VFunction 1) r)) Hok).
Defined.

Lemma X8_on_effect_witness :
  let r : registry := exec_all [RegisterAsync (VString "load") (VFunction 7);
                                On (VString "load") (VFunction 1)]
                        (constructor {[ "load" := VNull ]}) in
  let action := {| subscribers := [1]; func := Some 7 |} in
  r !! "load" = Some action ∧
  ∃ action',
    on (VString "load") (VFunction 2) r
    = (Normal (if bool_decide (2 ∉ subscribers action) then VFunction 2 else VUndefined),
       <["load" := action']> r, []) ∧
    func action' = func action.
Proof.
  intros r action.
  assert (r !! "load" = Some action) as Hk by (vm_compute; reflexivity).
  split; [exact Hk|].
  destruct (X8_on_effect r "load" action 2 Hk) as (a' & Hon & Hf & _).
  exists a'. split; [exact Hon|exact Hf].
Defined.


Lemma X10_runs_write_through_methods_witness :
  let r := exec_all [On (VString "ping") (VFunction 5); On (VString "ping") (VFunction 6)]
             (constructor {[ "ping" := VNull ]}) in
  reachable r ∧
  state_of (publish example_functions 3 "ping" VNull r)
  = exec_all (requested_ops (trace_of (publish example_functions 3 "ping" VNull r))) r ∧
  reachable (state_of (publish example_functions 3 "ping" VNull r)).
Proof.
  intros r.
  assert (reachable r) as Hreach by (eexists _, _; reflexivity).
  split; [exact Hreach|].
  destruct (X10_runs_write_through_methods example_functions 3 "ping" VNull r)
    as (_ & Hpublish & Hkeeps).
  split; [exact Hpublish|exact (proj2 (Hkeeps Hreach))].
Defined.

Lemma X11_one_publish_per_done_witness :
  let r : registry := exec_all [RegisterAsync (VString "load") (VFunction 8);
                                On (VString "load") (VFunction 1)]
                        (constructor {[ "load" := VNull ]}) in
  let action := {| subscribers := [1]; func := Some 8 |} in
  reachable r ∧ r !! "load" = Some action ∧ func action = Some 8 ∧
  handler_body example_functions 8 "load" (VNumber 5)
  = apply_dones "load" [VNumber 5; VNumber 5] ∧
  (∀ each result, each ∈ subscribers action →
     subscriber_body example_functions each result = Return) ∧
  length (subscribers action) < 2 ∧
  calls_of "load" 1 (trace_of (call example_functions 2 "load" (VNumber 5) r))
  = if bool_decide (1 ∈ subscribers action) then [VNumber 5; VNumber 5] else [].
Proof.
  intros r action.
  assert (reachable r) as Hreach by (eexists _, _; reflexivity).
  assert (r !! "load" = Some action) as Hk by (vm_compute; reflexivity).
  assert (func action = Some 8) as Hf by reflexivity.
  assert (handler_body example_functions 8 "load" (VNumber 5)
          = apply_dones "load" [VNumber 5; VNumber 5]) as Hbody by reflexivity.
  assert (∀ each result, each ∈ subscribers action →
            subscriber_body example_functions each result = Return) as Hret
    by returns_at_once.
  assert (length (subscribers action) < 2) as Hfuel by (simpl; lia).
  split; [exact Hreach|]. split; [exact Hk|]. split; [exact Hf|].
  split; [exact Hbody|]. split; [exact Hret|]. split; [exact Hfuel|].
  exact (X11_one_publish_per_done example_functions 2 r "load" action 8 1 (VNumber 5)
           [VNumber 5; VNumber 5] Hreach Hk Hf Hbody Hret Hfuel).
Defined.

Lemma X12_no_duplicate_subscribers_witness :
  let ops := [On (VString "ping") (VFunction 1); On (VString "ping") (VFunction 1);
              On (VString "ping") (VFunction 2)] in
  let action := {| subscribers := [1; 2]; func := None |} in
  exec_all ops (constructor {[ "ping" := VNull ]}) !! "ping" = Some action ∧
  NoDup (subscribers action).
Proof.
  intros ops action.
  assert (exec_all ops (constructor {[ "ping" := VNull ]}) !! "ping"
          = Some action) as Hk by (vm_compute; reflexivity).
  split; [exact Hk|].
  exact (X12_no_duplicate_subscribers {[ "ping" := VNull ]} ops "ping" action Hk).
Defined.

Lemma X13_on_unsubscribe_round_trip_witness :
  let r : registry := exec_all [On (VString "ping") (VFunction 1)]
                        (constructor {[ "ping" := VNull ]}) in
  let action := {| subscribers := [1]; func := None |} in
  r !! "ping" = Some action ∧ (2 ∉ subscribers action) ∧
  unsubscribe "ping" (VFunction 2) (state_of (on (VString "ping") (VFunction 2) r))
  = (Normal (), r, []).
Proof.
  intros r action.
  assert (r !! "ping" = Some action) as Hk by (vm_compute; reflexivity).
  assert (2 ∉ subscribers action) as Hn.
  { intros Hin. apply list_elem_of_singleton in Hin. discriminate Hin. }
  split; [exact Hk|]. split; [exact Hn|].
  exact (proj2 (X13_on_unsubscribe_round_trip r "ping" action 2 Hk Hn)).
Defined.

Lemma X14_resubscribe_goes_last_witness :
  let r : registry := exec_all [On (VString "ping") (VFunction 1); On (VString "ping") (VFunction 2)]
                        (constructor {[ "ping" := VNull ]}) in
  let action := {| subscribers := [1; 2]; func := None |} in
  reachable r ∧ r !! "ping" = Some action ∧
  on (VString "ping") (VFunction 1) (state_of (unsubscribe "ping" (VFunction 1) r))
  = (Normal (VFunction 1),
     <["ping" := {| subscribers := filter (λ x, x ≠ 1) (subscribers action) ++ [1];
                    func := func action |}]> r, []).
Proof.
  intros r action.
  assert (reachable r) as Hreach by (eexists _, _; reflexivity).
  assert (r !! "ping" = Some action) as Hk by (vm_compute; reflexivity).
  split; [exact Hreach|]. split; [exact Hk|].
  exact (X14_resubscribe_goes_last r "ping" action 1 Hreach Hk).
Defined.

Lemma X15_unsubscribe_not_a_function_witness :
  let r : registry := exec_all [On (VString "ping") (VFunction 1)]
                        (constructor {[ "ping" := VNull ]}) in
  typeof (VString "cb") ≠ "function" ∧
  unsubscribe "ping" (VString "cb") r
  = (match get r "ping" with Inherited => Throw undefined_length_read | _ => Normal () end,
     r, []) ∧
  unsubscribe "valueOf" (VString "cb") r
  = (match get r "valueOf" with Inherited => Throw undefined_length_read | _ => Normal () end,
     r, []).
Proof.
  intros r.
  assert (typeof (VString "cb") ≠ "function") as Ht by discriminate.
  split; [exact Ht|]. split.
  - exact (X15_unsubscribe_not_a_function r "ping" (VString "cb") Ht).
  - exact (X15_unsubscribe_not_a_function r "valueOf" (VString "cb") Ht).
Defined.

Lemma X16_unsubscribe_twice_witness :
  let r : registry := exec_all [On (VString "ping") (VFunction 1); On (VString "ping") (VFunction 2)]
                        (constructor {[ "ping" := VNull ]}) in
  reachable r ∧
  let run1 := unsubscribe "ping" (VFunction 1) r in
  unsubscribe "ping" (VFunction 1) (state_of run1) = (result_of run1, state_of run1, []).
Proof.
  intros r.
  assert (reachable r) as Hreach by (eexists _, _; reflexivity).
  split; [exact Hreach|].
  exact (X16_unsubscribe_twice r "ping" (VFunction 1) Hreach).
Defined.

Lemma X17_only_registerAsync_sets_func_witness :
  let ops := [On (VString "load") (VFunction 1); Call "load" (VNumber 5);
              Unsubscribe "load" (VFunction 1)] in
  let r : registry := exec_all [RegisterAsync (VString "load") (VFunction 7)]
                        (constructor {[ "load" := VNull ]}) in
  Forall (λ o, ∀ key func_, o ≠ RegisterAsync key func_) ops ∧
  func <$> exec_all ops r !! "load" = func <$> r !! "load".
Proof.
  intros ops r.
  assert (Forall (λ o, ∀ key func_, o ≠ RegisterAsync key func_) ops) as Hops
    by (repeat constructor; discriminate).
  split; [exact Hops|].
  exact (X17_only_registerAsync_sets_func ops r "load" Hops).
Defined.

Lemma X18_subscribers_come_from_on_witness :
  let ops := [On (VString "ping") (VFunction 1); On (VString "ping") (VFunction 2);
              Unsubscribe "ping" (VFunction 1)] in
  let action := {| subscribers := [2]; func := None |} in
  exec_all ops (constructor {[ "ping" := VNull ]}) !! "ping" = Some action ∧
  2 ∈ subscribers action ∧
  On (VString "ping") (VFunction 2) ∈ ops.
Proof.
  intros ops action.
  assert (exec_all ops (constructor {[ "ping" := VNull ]}) !! "ping"
          = Some action) as Hk by (vm_compute; reflexivity).
  assert (2 ∈ subscribers action) as Hin by (apply list_elem_of_singleton; reflexivity).
  split; [exact Hk|]. split; [exact Hin|].
  exact (X18_subscribers_come_from_on {[ "ping" := VNull ]} ops "ping" action 2 Hk Hin).
Defined.

Lemma X19_func_comes_from_registerAsync_witness :
  let ops := [RegisterAsync (VString "load") (VFunction 7);
              RegisterAsync (VString "load") (VFunction 8)] in
  let action := {| subscribers := []; func := Some 7 |} in
  exec_all ops (constructor {[ "load" := VNull ]}) !! "load" = Some action ∧
  func action = Some 7 ∧
  RegisterAsync (VString "load") (VFunction 7) ∈ ops.
Proof.
  intros ops action.
  assert (exec_all ops (constructor {[ "load" := VNull ]}) !! "load"
          = Some action) as Hk by (vm_compute; reflexivity).
  assert (func action = Some 7) as Hf by reflexivity.
  split; [exact Hk|]. split; [exact Hf|].
  exact (X19_func_comes_from_registerAsync {[ "load" := VNull ]} ops "load" action 7 Hk Hf).
Defined.

Lemma X20_subscription_lasts_witness :
  let ops := [On (VString "ping") (VFunction 2); Unsubscribe "ping" (VFunction 2);
              Call "ping" VNull] in
  let r : registry := exec_all [On (VString "ping") (VFunction 1)]
                        (constructor {[ "ping" := VNull ]}) in
  let action := {| subscribers := [1]; func := None |} in
  r !! "ping" = Some action ∧ 1 ∈ subscribers action ∧
  Forall (λ o, o ≠ Unsubscribe "ping" (VFunction 1) ∧
               ∀ func_, o ≠ RegisterAsync (VString "ping") func_) ops ∧
  ∃ action', exec_all ops r !! "ping" = Some action' ∧ 1 ∈ subscribers action'.
Proof.
  intros ops r action.
  assert (r !! "ping" = Some action) as Hk by (vm_compute; reflexivity).
  assert (1 ∈ subscribers action) as Hin by (apply list_elem_of_singleton; reflexivity).
  assert (Forall (λ o, o ≠ Unsubscribe "ping" (VFunction 1) ∧
                       ∀ func_, o ≠ RegisterAsync (VString "ping") func_) ops) as Hops
    by (repeat constructor; discriminate).
  split; [exact Hk|]. split; [exact Hin|]. split; [exact Hops|].
  exact (X20_subscription_lasts ops r "ping" action 1 Hk Hin Hops).
Defined.

Lemma X21_unknown_name_noop_witness :
  ({[ "x" := VNull ]} : gmap string jsval) !! "y" = None ∧ ("y" ∉ Object_prototype) ∧
  let r := exec_all [On (VString "x") (VFunction 1)] (constructor {[ "x" := VNull ]}) in
  call example_functions 0 "y" (VNumber 1) r = (Some (Normal ()), r, []) ∧
  unsubscribe "y" (VFunction 1) r = (Normal (), r, []).
Proof.
  assert (({[ "x" := VNull ]} : gmap string jsval) !! "y" = None) as Hy by reflexivity.
  assert ("y" ∉ Object_prototype) as Hn
    by (apply (bool_decide_unpack _); vm_compute; exact I).
  split; [exact Hy|]. split; [exact Hn|].
  destruct (X21_unknown_name_noop example_functions 0 {[ "x" := VNull ]}
              [On (VString "x") (VFunction 1)] "y" (VNumber 1) (VFunction 1) Hy Hn)
    as (Hcall & _ & _ & Hunsubscribe).
  split; [exact Hcall|exact Hunsubscribe].
Defined.

Lemma X22_inherited_name_throws_witness :
  let r : registry := constructor {[ "x" := VNull ]} in
  r !! "constructor" = None ∧ "constructor" ∈ Object_prototype ∧
  publish example_functions 0 "constructor" VNull r
  = (Some (Throw subscribers_not_iterable), r, []) ∧
  on (VString "constructor") (VFunction 1) r = (Throw undefined_includes_read, r, []).
Proof.
  intros r.
  assert (r !! "constructor" = None) as Hk by (vm_compute; reflexivity).
  assert ("constructor" ∈ Object_prototype) as Hin
    by (apply (bool_decide_unpack _); vm_compute; exact I).
  split; [exact Hk|]. split; [exact Hin|].
  destruct (X22_inherited_name_throws example_functions 0 r "constructor" VNull VNull 1 1
              Hk Hin) as (_ & Hpublish & _ & Hon & _).
  split; [exact Hpublish|exact Hon].
Defined.

Lemma X23_unsubscribe_during_publish_witness :
  let r := exec_all [On (VString "ping") (VFunction 3); On (VString "ping") (VFunction 5);
                     On (VString "ping") (VFunction 1); On (VString "ping") (VFunction 2)]
             (constructor {[ "ping" := VNull ]}) in
  let action := {| subscribers := [3; 5; 1; 2]; func := None |} in
  r !! "ping" = Some action ∧
  subscribers action = [3] ++ 5 :: 1 :: [2] ∧
  NoDup (subscribers action) ∧
  (∀ x, x ∈ [3] ++ [2] → subscriber_body example_functions x VNull = Return) ∧
  subscriber_body example_functions 5 VNull
  = Request (Method (Unsubscribe "ping" (VFunction 5))) (uncaught Return) ∧
  length (subscribers action) ≤ 4 ∧
  publish example_functions 4 "ping" VNull r
  = (Some (Normal ()),
     <["ping" := {| subscribers := [3] ++ 1 :: [2]; func := func action |}]> r,
     ((λ x, InvokeSubscriber "ping" x VNull) <$> [3])
       ++ InvokeSubscriber "ping" 5 VNull
       :: Requests (Method (Unsubscribe "ping" (VFunction 5)))
       :: ((λ x, InvokeSubscriber "ping" x VNull) <$> [2])).
Proof.
  intros r action.
  assert (r !! "ping" = Some action) as Hk by (vm_compute; reflexivity).
  assert (subscribers action = [3] ++ 5 :: 1 :: [2]) as Hsubs by reflexivity.
  assert (NoDup (subscribers action)) as Hnd
    by (apply (bool_decide_unpack _); vm_compute; exact I).
  assert (∀ x, x ∈ [3] ++ [2] → subscriber_body example_functions x VNull = Return) as Hret
    by returns_at_once.
  assert (subscriber_body example_functions 5 VNull
          = Request (Method (Unsubscribe "ping" (VFunction 5))) (uncaught Return)) as Hbody
    by reflexivity.
  assert (length (subscribers action) ≤ 4) as Hfuel by (simpl; lia).
  split; [exact Hk|]. split; [exact Hsubs|]. split; [exact Hnd|].
  split; [exact Hret|]. split; [exact Hbody|]. split; [exact Hfuel|].
  exact (X23_unsubscribe_during_publish example_functions 4 r "ping" VNull action
           [3] [2] 5 1 Hk Hsubs Hnd Hret Hbody Hfuel).
Defined.

Lemma X24_subscribe_during_publish_witness :
  let r := exec_all [On (VString "ping") (VFunction 1); On (VString "ping") (VFunction 6);
                     On (VString "ping") (VFunction 3)]
             (constructor {[ "ping" := VNull ]}) in
  let action := {| subscribers := [1; 6; 3]; func := None |} in
  r !! "ping" = Some action ∧
  subscribers action = [1] ++ 6 :: [3] ∧
  (2 ∉ subscribers action) ∧
  (∀ x, x ∈ [1] ++ [3] ++ [2] → subscriber_body example_functions x VNull = Return) ∧
  subscriber_body example_functions 6 VNull
  = Request (Method (On (VString "ping") (VFunction 2))) (uncaught Return) ∧
  length (subscribers action) < 4 ∧
  publish example_functions 4 "ping" VNull r
  = (Some (Normal ()),
     <["ping" := {| subscribers := subscribers action ++ [2]; func := func action |}]> r,
     ((λ x, InvokeSubscriber "ping" x VNull) <$> [1])
       ++ InvokeSubscriber "ping" 6 VNull
       :: Requests (Method (On (VString "ping") (VFunction 2)))
       :: ((λ x, InvokeSubscriber "ping" x VNull) <$> ([3] ++ [2]))).
Proof.
  intros r action.
  assert (r !! "ping" = Some action) as Hk by (vm_compute; reflexivity).
  assert (subscribers action = [1] ++ 6 :: [3]) as Hsubs by reflexivity.
  assert (2 ∉ subscribers action) as Hn
    by (apply (bool_decide_unpack _); vm_compute; exact I).
  assert (∀ x, x ∈ [1] ++ [3] ++ [2] → subscriber_body example_functions x VNull = Return)
    as Hret by returns_at_once.
  assert (subscriber_body example_functions 6 VNull
          = Request (Method (On (VString "ping") (VFunction 2))) (uncaught Return)) as Hbody
    by reflexivity.
  assert (length (subscribers action) < 4) as Hfuel by (simpl; lia).
  split; [exact Hk|]. split; [exact Hsubs|]. split; [exact Hn|].
  split; [exact Hret|]. split; [exact Hbody|]. split; [exact Hfuel|].
  exact (X24_subscribe_during_publish example_functions 4 r "ping" VNull action
           [1] [3] 6 2 Hk Hsubs Hn Hret Hbody Hfuel).
Defined.

Lemma X25_more_fuel_same_run_witness :
  let r := exec_all [RegisterAsync (VString "load") (VFunction 7);
                     On (VString "load") (VFunction 1)]
             (constructor {[ "load" := VNull ]}) in
  let t := [InvokeHandler 7 "load" (VNumber 5);
            Requests (ApplyDone "load" (VObject [("id", VNumber 5); ("value", VNumber 10)]));
            InvokeSubscriber "load" 1 (VObject [("id", VNumber 5); ("value", VNumber 10)])] in
  2 ≤ 10 ∧
  call example_functions 2 "load" (VNumber 5) r = (Some (Normal ()), r, t) ∧
  call example_functions 10 "load" (VNumber 5) r = (Some (Normal ()), r, t).
Proof.
  intros r t.
  assert (2 ≤ 10) as Hle by lia.
  assert (call example_functions 2 "load" (VNumber 5) r = (Some (Normal ()), r, t)) as Hrun
    by (vm_compute; reflexivity).
  split; [exact Hle|]. split; [exact Hrun|].
  exact (proj1 (X25_more_fuel_same_run example_functions 2 10 "load" (VNumber 5) r r
                  (Normal ()) t Hle) Hrun).
Defined.

Lemma X26_other_actions_on_request_only_witness :
  let r := exec_all [On (VString "ping") (VFunction 5); On (VString "load") (VFunction 1)]
             (constructor {[ "ping" := VNull; "load" := VNull ]}) in
  "ping" ≠ "load" ∧
  applied_after_published "load" (trace_of (call example_functions 3 "ping" VNull r)).
Proof.
  intros r.
  assert ("ping" ≠ "load") as Hne by discriminate.
  split; [exact Hne|].
  exact (proj1 (X26_other_actions_on_request_only example_functions 3 "ping" "load" VNull r
                  Hne)).
Defined.
